(** * go-rules: a shallow embedding of [rules.go] and its specification

    The development follows the layout of the Go package:
    - dynamic values ([any]) and the standard-library primitives the package
      calls ([strings.Split], [strings.Contains], [reflect.DeepEqual],
      the [float64] conversions);
    - the comparison helpers ([equal], [toFloat], [greater], ..., [in_]);
    - the path resolver [getValue];
    - the engine ([New], [Register], [evalCondition],
      [EvaluateWithContext], [Evaluate]).

    Go functions returning [(T, error)] or [(T, bool)] are embedded as
    functions returning pairs, exactly as the source returns them; a [nil]
    error is [None]. *)

From Stdlib Require Import ZArith Floats Ascii DecimalString.
From stdpp Require Import gmap strings list fin_maps.

Set Warnings "-register-all".
Set Default Proof Using "Type".
Local Open Scope string_scope.
Local Open Scope list_scope.

(* ===================================================================== *)
(** ** Dynamic values *)
(* ===================================================================== *)

(** The signed and unsigned integer types listed in [toFloat]'s type
    switch. *)
Inductive IntKind := KInt | KInt8 | KInt16 | KInt32 | KInt64.
Inductive UintKind := KUint | KUint8 | KUint16 | KUint32 | KUint64.

#[global] Instance IntKind_eq_dec : EqDecision IntKind.
Proof. solve_decision. Defined.
#[global] Instance UintKind_eq_dec : EqDecision UintKind.
Proof. solve_decision. Defined.

(** A value of Go type [any], by dynamic type: the types the package's
    type switches and assertions tell apart, plus [bool] and the nil
    interface.  [float64] is Rocq's primitive binary64 [float]; a
    [float32] is carried as its (exact) widening to binary64.  A slice or
    map value may be nil, which [reflect.DeepEqual] distinguishes from an
    empty one. *)
Inductive value :=
| VNil
| VBool (b : bool)
| VFloat64 (f : float)
| VFloat32 (f : float)
| VInt (k : IntKind) (n : Z)
| VUint (k : UintKind) (n : Z)
| VString (s : string)
| VSliceNil
| VSlice (xs : list value)
| VMapNil
| VMap (m : gmap string value).

(** [map[string]any] as a type of its own: the record handed to the
    evaluator.  [None] is the nil map. *)
Definition Data := option (gmap string value).

(** [any(data)] *)
Definition any_of_Data (data : Data) : value :=
  match data with
  | None => VMapNil
  | Some m => VMap m
  end.

(** The type assertion [cur.(map[string]any)]: it succeeds on a nil map
    too, and reading a nil map finds no key. *)
Definition as_map (cur : value) : gmap string value * bool :=
  match cur with
  | VMap m => (m, true)
  | VMapNil => (∅, true)
  | _ => (∅, false)
  end.

(** The type assertion [b.([]any)]; ranging over a nil slice visits
    nothing. *)
Definition as_slice (b : value) : list value * bool :=
  match b with
  | VSlice xs => (xs, true)
  | VSliceNil => ([], true)
  | _ => ([], false)
  end.

(** The type assertion [a.(string)]. *)
Definition as_string (a : value) : string * bool :=
  match a with
  | VString s => (s, true)
  | _ => ("", false)
  end.

(* ===================================================================== *)
(** ** Standard-library primitives *)
(* ===================================================================== *)

(** [strings.Split(s, ".")]: the pieces of [s] between the dots; always at
    least one piece. *)
Fixpoint Split_dot (s : string) : list string :=
  match s with
  | EmptyString => [EmptyString]
  | String c s' =>
      if Ascii.eqb c "."%char then EmptyString :: Split_dot s'
      else match Split_dot s' with
           | h :: t => String c h :: t
           | [] => [String c EmptyString]
           end
  end.

(** [strings.Join(parts, ".")] *)
Fixpoint Join_dot (parts : list string) : string :=
  match parts with
  | [] => EmptyString
  | [p] => p
  | p :: rest => p +:+ String "."%char (Join_dot rest)
  end.

(** [strings.HasPrefix(s, p)] *)
Fixpoint HasPrefix (s p : string) {struct p} : bool :=
  match p, s with
  | EmptyString, _ => true
  | String c p', String d s' => Ascii.eqb c d && HasPrefix s' p'
  | String _ _, EmptyString => false
  end.

(** [strings.Contains(s, substr)]: [substr] starts at some offset of [s]. *)
Fixpoint Contains (s substr : string) : bool :=
  HasPrefix s substr ||
  match s with
  | EmptyString => false
  | String _ s' => Contains s' substr
  end.

(** The conversion [float64(n)] of an integer: round to nearest, ties to
    even. *)
Definition float64_of_Z (n : Z) : float :=
  SF2Prim (binary_normalize prec emax n 0 false).

(** Pairwise test of two lists of the same length. *)
Definition all2 {A B} (f : A -> B -> bool) : list A -> list B -> bool :=
  fix go xs ys :=
    match xs, ys with
    | [], [] => true
    | x :: xs', y :: ys' => f x y && go xs' ys'
    | _, _ => false
    end.

(** [reflect.DeepEqual] on two [any] values that do not share storage: a
    nil interface equals only a nil interface; otherwise the dynamic types
    must be identical; floats compare with [==] (so NaN differs from
    itself); a nil slice or map differs from an empty one; slices of the
    same length compare element-wise; maps of the same length compare by
    looking up each key of the first in the second. *)
Fixpoint DeepEqual (a b : value) {struct a} : bool :=
  match a, b with
  | VNil, VNil => true
  | VBool x, VBool y => Bool.eqb x y
  | VFloat64 x, VFloat64 y => PrimFloat.eqb x y
  | VFloat32 x, VFloat32 y => PrimFloat.eqb x y
  | VInt k1 x, VInt k2 y => bool_decide (k1 = k2) && Z.eqb x y
  | VUint k1 x, VUint k2 y => bool_decide (k1 = k2) && Z.eqb x y
  | VString x, VString y => String.eqb x y
  | VSliceNil, VSliceNil => true
  | VSlice xs, VSlice ys => all2 DeepEqual xs ys
  | VMapNil, VMapNil => true
  | VMap m1, VMap m2 =>
      Nat.eqb (size m1) (size m2) &&
      map_fold (fun k v1 acc =>
                  acc && match m2 !! k with
                         | Some v2 => DeepEqual v1 v2
                         | None => false
                         end) true m1
  | _, _ => false
  end.

(** Deep equality as the documentation of package [reflect] words it,
    for comparison with [DeepEqual]: values of identical type that are
    equal scalars, slices that are both nil or both non-nil with deeply
    equal corresponding elements, maps that are both nil or both non-nil
    with the same keys mapped to deeply equal values. *)
Inductive deep_eq : value -> value -> Prop :=
| deep_eq_nil : deep_eq VNil VNil
| deep_eq_bool b : deep_eq (VBool b) (VBool b)
| deep_eq_float64 x y :
    PrimFloat.eqb x y = true -> deep_eq (VFloat64 x) (VFloat64 y)
| deep_eq_float32 x y :
    PrimFloat.eqb x y = true -> deep_eq (VFloat32 x) (VFloat32 y)
| deep_eq_int k n : deep_eq (VInt k n) (VInt k n)
| deep_eq_uint k n : deep_eq (VUint k n) (VUint k n)
| deep_eq_string s : deep_eq (VString s) (VString s)
| deep_eq_slice_nil : deep_eq VSliceNil VSliceNil
| deep_eq_slice xs ys :
    Forall2 deep_eq xs ys -> deep_eq (VSlice xs) (VSlice ys)
| deep_eq_map_nil : deep_eq VMapNil VMapNil
| deep_eq_map m1 m2 :
    (forall k, option_Forall2 deep_eq (m1 !! k) (m2 !! k)) ->
    deep_eq (VMap m1) (VMap m2).

(** Values that hold no float, at any depth. *)
Inductive float_free : value -> Prop :=
| float_free_nil : float_free VNil
| float_free_bool b : float_free (VBool b)
| float_free_int k n : float_free (VInt k n)
| float_free_uint k n : float_free (VUint k n)
| float_free_string s : float_free (VString s)
| float_free_slice_nil : float_free VSliceNil
| float_free_slice xs : Forall float_free xs -> float_free (VSlice xs)
| float_free_map_nil : float_free VMapNil
| float_free_map m :
    (forall k v, m !! k = Some v -> float_free v) -> float_free (VMap m).

(** Values that hold no NaN, at any depth. *)
Inductive nan_free : value -> Prop :=
| nan_free_nil : nan_free VNil
| nan_free_bool b : nan_free (VBool b)
| nan_free_float64 f : PrimFloat.is_nan f = false -> nan_free (VFloat64 f)
| nan_free_float32 f : PrimFloat.is_nan f = false -> nan_free (VFloat32 f)
| nan_free_int k n : nan_free (VInt k n)
| nan_free_uint k n : nan_free (VUint k n)
| nan_free_string s : nan_free (VString s)
| nan_free_slice_nil : nan_free VSliceNil
| nan_free_slice xs : Forall nan_free xs -> nan_free (VSlice xs)
| nan_free_map_nil : nan_free VMapNil
| nan_free_map m :
    (forall k v, m !! k = Some v -> nan_free v) -> nan_free (VMap m).

(** The number of constructors of a value. *)
Fixpoint value_size (v : value) : nat :=
  match v with
  | VSlice xs => S (foldr (fun x acc => value_size x + acc) 0 xs)
  | VMap m => S (map_fold (fun _ x acc => value_size x + acc) 0 m)
  | _ => 1
  end.

(* ===================================================================== *)
(** ** The path resolver *)
(* ===================================================================== *)

(** The loop of [getValue]: [for _, p := range parts]. *)
Fixpoint getValue_loop (cur : value) (parts : list string) : value * bool :=
  match parts with
  | [] => (cur, true)
  | p :: rest =>
      let '(m, ok) := as_map cur in
      if negb ok then (VNil, false)
      else match m !! p with
           | None => (VNil, false)
           | Some v => getValue_loop v rest
           end
  end.

Definition getValue (data : Data) (path : string) : value * bool :=
  match data with
  | None => (VNil, false)
  | Some _ => getValue_loop (any_of_Data data) (Split_dot path)
  end.

(* ===================================================================== *)
(** ** Errors, rules, results *)
(* ===================================================================== *)

(** [type Operator string] *)
Abbreviation Operator := string (only parsing).

Definition OperatorEQ : Operator := "eq".
Definition OperatorNE : Operator := "ne".
Definition OperatorGT : Operator := "gt".
Definition OperatorGTE : Operator := "gte".
Definition OperatorLT : Operator := "lt".
Definition OperatorLTE : Operator := "lte".
Definition OperatorContains : Operator := "contains".
Definition OperatorIn : Operator := "in".

(** Go [error] values, by the call that builds them:
    - [Errorf msg] is [fmt.Errorf(msg)] for a message without verbs;
    - [ErrFieldNotFound f] is
      [fmt.Errorf("field %q not found: %w", f, errors.New("field not found"))];
    - [ErrUnknownOperator op] is [fmt.Errorf("unknown operator %q", op)];
    - [Canceled] and [DeadlineExceeded] are the errors of package [context];
    - [ErrSyntax] and [ErrRange] are the errors of [strconv.ParseFloat]. *)
Inductive error :=
| Errorf (msg : string)
| ErrFieldNotFound (field : string)
| ErrUnknownOperator (op : Operator)
| Canceled
| DeadlineExceeded
| ErrSyntax
| ErrRange.

Record Condition := {
  Field : string;
  Op : Operator;
  Value : value;
}.

(** [type Logic string] *)
Abbreviation Logic := string (only parsing).
Definition LogicAND : Logic := "and".
Definition LogicOR : Logic := "or".

Record Rule := {
  Conditions : list Condition;
  Rule_Logic : Logic;
}.

Record Result := {
  Matched : bool;
  Explanation : string;
}.

(** [Result{}] *)
Definition Result_zero : Result := {| Matched := false; Explanation := "" |}.

(** A registered operator: [func(any, any) (bool, error)]. *)
Abbreviation OpFunc := (value -> value -> bool * option error) (only parsing).

Record Engine := {
  ops : gmap Operator OpFunc;
}.

(** A [context.Context], as far as the engine looks at it: the answers that
    successive calls of [ctx.Err()] give, numbered from 0.  The functions
    below thread the number of calls made so far. *)
Definition Context := nat -> option error.

(** [context.Background()] is never cancelled. *)
Definition Background : Context := fun _ => None.

(** A context cancelled with [err] from its [n]-th answer on, as a
    context is once its deadline passes or its cancel function is
    called. *)
Definition cancelled_from (n : nat) (err : error) : Context :=
  fun t => if Nat.ltb t n then None else Some err.

(** The verb [%t]. *)
Definition format_t (b : bool) : string := if b then "true" else "false".

(* ===================================================================== *)
(** ** Reference instances of the two library parameters

    The package leaves number parsing to [strconv.ParseFloat] and value
    rendering to [fmt]; the development is parametric in both (section
    [Rules] below).  To run the embedding on closed inputs, two instances
    are fixed here.  Each agrees with the Go function on the fragment its
    comment states and is not meant beyond it. *)
(* ===================================================================== *)

(** The value of a decimal digit. *)
Definition digit_value (c : ascii) : option Z :=
  let n := Z.of_N (N_of_ascii c) in
  if (48 <=? n)%Z && (n <=? 57)%Z then Some (n - 48)%Z else None.

(** The number written by a string of decimal digits, most significant
    first; [None] if a character is not a digit. *)
Fixpoint digits_value (s : string) (acc : Z) : option Z :=
  match s with
  | EmptyString => Some acc
  | String c s' =>
      match digit_value c with
      | Some d => digits_value s' (10 * acc + d)%Z
      | None => None
      end
  end.

(** [strconv.ParseFloat(s, 64)] on integer literals: an optional sign and
    one or more decimal digits give the nearest [float64] (ties to even),
    with [ErrRange] and an infinity when it overflows.  Every other string
    is refused here with [ErrSyntax]; Go's function also reads fractions,
    exponents, hexadecimal literals, digit separators, [Inf] and [NaN]. *)
Definition ParseFloat_integer (s : string) : float * option error :=
  let '(neg, body) :=
    match s with
    | String "+"%char r => (false, r)
    | String "-"%char r => (true, r)
    | _ => (false, s)
    end in
  match body with
  | EmptyString => (0%float, Some ErrSyntax)
  | _ =>
      match digits_value body 0 with
      | None => (0%float, Some ErrSyntax)
      | Some n =>
          let f := float64_of_Z n in
          let f := if neg then (- f)%float else f in
          (f, if PrimFloat.is_infinity f then Some ErrRange else None)
      end
  end.

(** Decimal rendering of an integer, as [%d] and [%v] print it. *)
Definition format_d (n : Z) : string :=
  DecimalString.NilZero.string_of_int (Z.to_int n).

(** The verb [%v] on nil, booleans, strings, integers and slices of
    those: [<nil>], [true], the string itself, the decimal digits, and
    the elements between brackets separated by one space.  Floats and
    maps are outside this fragment and are rendered as [?]. *)
Fixpoint format_v_basic (v : value) : string :=
  match v with
  | VNil => "<nil>"
  | VBool b => format_t b
  | VString s => s
  | VInt _ n => format_d n
  | VUint _ n => format_d n
  | VSliceNil => "[]"
  | VSlice xs =>
      "[" +:+
      (fix elems (xs : list value) : string :=
         match xs with
         | [] => ""
         | [x] => format_v_basic x
         | x :: rest => format_v_basic x +:+ " " +:+ elems rest
         end) xs
      +:+ "]"
  | _ => "?"
  end.

(* ===================================================================== *)
(** ** Sample inputs *)
(* ===================================================================== *)

Definition sample_record : Data :=
  Some {[ "status" := VString "active";
          "age" := VInt KInt 17;
          "premium" := VBool true;
          "user" := VMap {[ "role" := VString "admin" ]} ]}.

(** False on [sample_record]. *)
Definition cond_age : Condition :=
  {| Field := "age"; Op := OperatorGT; Value := VInt KInt 18 |}.

(** True on [sample_record]. *)
Definition cond_premium : Condition :=
  {| Field := "premium"; Op := OperatorEQ; Value := VBool true |}.

(** True on [sample_record], through a nested field. *)
Definition cond_role : Condition :=
  {| Field := "user.role"; Op := OperatorEQ; Value := VString "admin" |}.

(** Its field does not resolve in [sample_record]. *)
Definition cond_missing : Condition :=
  {| Field := "missing.field"; Op := OperatorEQ; Value := VInt KInt 1 |}.

(** Its operator is not a built-in. *)
Definition cond_unknown : Condition :=
  {| Field := "age"; Op := "between"; Value := VInt KInt 1 |}.

(** Its comparator fails on [sample_record]: ["active"] is no number. *)
Definition cond_mismatch : Condition :=
  {| Field := "status"; Op := OperatorGT; Value := VInt KInt 1 |}.

Section Rules.

(** Two functions of Go's standard library are left as parameters:
    [strconv.ParseFloat(s, 64)], and the rendering of a value by the verb
    [%v] of package [fmt]. *)
Variable ParseFloat : string -> float * option error.
Variable format_v : value -> string.

(* ===================================================================== *)
(** ** Comparison helpers *)
(* ===================================================================== *)

Definition toFloat (v : value) : float * bool :=
  match v with
  | VFloat64 x => (x, true)
  | VFloat32 x => (x, true)
  | VInt _ x => (float64_of_Z x, true)
  | VUint _ x => (float64_of_Z x, true)
  | VString x =>
      let '(f, err) := ParseFloat x in
      match err with
      | None => (f, true)
      | Some _ => (0%float, false)
      end
  | _ => (0%float, false)
  end.

Definition equal (a b : value) : bool :=
  if DeepEqual a b then true
  else
    let '(fa, oka) := toFloat a in
    if oka then
      let '(fb, okb) := toFloat b in
      if okb then PrimFloat.eqb fa fb else false
    else false.

Definition greater (a b : value) : bool * option error :=
  let '(fa, oka) := toFloat a in
  let '(fb, okb) := toFloat b in
  if oka && okb then (PrimFloat.ltb fb fa, None)
  else (false, Some (Errorf "type mismatch for >")).

Definition greaterOrEqual (a b : value) : bool * option error :=
  let '(fa, oka) := toFloat a in
  let '(fb, okb) := toFloat b in
  if oka && okb then (PrimFloat.leb fb fa, None)
  else (false, Some (Errorf "type mismatch for >=")).

Definition less (a b : value) : bool * option error :=
  let '(fa, oka) := toFloat a in
  let '(fb, okb) := toFloat b in
  if oka && okb then (PrimFloat.ltb fa fb, None)
  else (false, Some (Errorf "type mismatch for <")).

Definition lessOrEqual (a b : value) : bool * option error :=
  let '(fa, oka) := toFloat a in
  let '(fb, okb) := toFloat b in
  if oka && okb then (PrimFloat.leb fa fb, None)
  else (false, Some (Errorf "type mismatch for <=")).

Definition contains (a b : value) : bool * option error :=
  let '(s, ok) := as_string a in
  if ok then
    let '(search, ok') := as_string b in
    if ok' then (Contains s search, None)
    else (false, Some (Errorf "type mismatch for contains"))
  else (false, Some (Errorf "type mismatch for contains")).

(** The loop of [in]: [for _, item := range slice]. *)
Fixpoint in_loop (a : value) (slice : list value) : bool * option error :=
  match slice with
  | [] => (false, None)
  | item :: rest => if equal a item then (true, None) else in_loop a rest
  end.

(** [in] (a keyword of Rocq, hence the underscore). *)
Definition in_ (a b : value) : bool * option error :=
  let '(slice, ok) := as_slice b in
  if negb ok then (false, Some (Errorf "in requires slice value"))
  else in_loop a slice.

(* ===================================================================== *)
(** ** The engine *)
(* ===================================================================== *)

(** [e.ops[op] = fn] *)
Definition Register (e : Engine) (op : Operator) (fn : OpFunc) : Engine :=
  {| ops := <[op := fn]> (ops e) |}.

Definition op_eq : OpFunc := fun a b => (equal a b, None).
Definition op_ne : OpFunc := fun a b => (negb (equal a b), None).
Definition op_gte : OpFunc := fun a b => greaterOrEqual a b.
Definition op_lt : OpFunc := fun a b => less a b.
Definition op_lte : OpFunc := fun a b => lessOrEqual a b.

Definition registerDefaults (e : Engine) : Engine :=
  let e := Register e OperatorEQ op_eq in
  let e := Register e OperatorNE op_ne in
  let e := Register e OperatorGT greater in
  let e := Register e OperatorGTE op_gte in
  let e := Register e OperatorLT op_lt in
  let e := Register e OperatorLTE op_lte in
  let e := Register e OperatorContains contains in
  let e := Register e OperatorIn in_ in
  e.

Definition New : Engine := registerDefaults {| ops := ∅ |}.

(** The package-level engine, as initialised. *)
Definition Default : Engine := New.

(** [fmt.Sprintf("%s %s %v → %t", c.Field, c.Op, c.Value, matched)] *)
Definition explain (c : Condition) (matched : bool) : string :=
  Field c +:+ " " +:+ Op c +:+ " " +:+ format_v (Value c)
    +:+ " → " +:+ format_t matched.

(** [t] is the number of [ctx.Err()] calls made before this one; the
    second component of the result is that number afterwards. *)
Definition evalCondition (e : Engine) (ctx : Context) (c : Condition)
    (data : Data) (t : nat) : (bool * string * option error) * nat :=
  match ctx t with
  | Some _ => ((false, "", ctx (S t)), S (S t))
  | None =>
      let t := S t in
      let '(v, ok) := getValue data (Field c) in
      if negb ok then ((false, "", Some (ErrFieldNotFound (Field c))), t)
      else
        match ops e !! Op c with
        | None => ((false, "", Some (ErrUnknownOperator (Op c))), t)
        | Some fn =>
            let '(matched, err) := fn v (Value c) in
            match err with
            | Some _ => ((false, "", err), t)
            | None => ((matched, explain c matched, None), t)
            end
        end
  end.

(** The loop of the AND branch. *)
Fixpoint EvaluateWithContext_and (e : Engine) (ctx : Context)
    (cs : list Condition) (data : Data) (t : nat) : Result * option error :=
  match cs with
  | [] => ({| Matched := true; Explanation := "all conditions met" |}, None)
  | c :: rest =>
      let '((matched, expl, err), t) := evalCondition e ctx c data t in
      match err with
      | Some _ => (Result_zero, err)
      | None =>
          if negb matched
          then ({| Matched := false; Explanation := expl |}, None)
          else EvaluateWithContext_and e ctx rest data t
      end
  end.

(** The loop of the OR branch. *)
Fixpoint EvaluateWithContext_or (e : Engine) (ctx : Context)
    (cs : list Condition) (data : Data) (t : nat) : Result * option error :=
  match cs with
  | [] => ({| Matched := false; Explanation := "no conditions met" |}, None)
  | c :: rest =>
      let '((matched, expl, err), t) := evalCondition e ctx c data t in
      match err with
      | Some _ => (Result_zero, err)
      | None =>
          if matched
          then ({| Matched := true; Explanation := expl |}, None)
          else EvaluateWithContext_or e ctx rest data t
      end
  end.

Definition Engine_EvaluateWithContext (e : Engine) (ctx : Context)
    (rule : Rule) (data : Data) : Result * option error :=
  match ctx 0%nat with
  | Some _ => (Result_zero, ctx 1%nat)
  | None =>
      if Nat.eqb (length (Conditions rule)) 0
      then ({| Matched := true; Explanation := "" |}, None)
      else
        let logic := Rule_Logic rule in
        let logic := if String.eqb logic "" then LogicAND else logic in
        if String.eqb logic LogicAND
        then EvaluateWithContext_and e ctx (Conditions rule) data 1
        else EvaluateWithContext_or e ctx (Conditions rule) data 1
  end.

Definition Engine_Evaluate (e : Engine) (rule : Rule) (data : Data)
  : Result * option error :=
  Engine_EvaluateWithContext e Background rule data.

Definition Evaluate (rule : Rule) (data : Data) : Result * option error :=
  Engine_Evaluate Default rule data.

Definition EvaluateWithContext (ctx : Context) (rule : Rule) (data : Data)
  : Result * option error :=
  Engine_EvaluateWithContext Default ctx rule data.

(* ===================================================================== *)
(** ** Vocabulary of the specification *)
(* ===================================================================== *)

(** [resolves root parts v]: descending from [root] through the keys
    [parts], each found in a (non-nil) string-keyed mapping, ends at [v]. *)
Inductive resolves : value -> list string -> value -> Prop :=
| resolves_here v : resolves v [] v
| resolves_step m p rest v r :
    m !! p = Some v -> resolves v rest r -> resolves (VMap m) (p :: rest) r.

(** [b] occurs in [a] as a contiguous substring. *)
Definition Substring (b a : string) : Prop :=
  exists pre post, a = pre +:+ b +:+ post.

(** The condition [c] evaluates, on [data] with the operators of [e], to
    the boolean [b]: its field resolves, its operator is registered, and
    the operator returns [b] and no error. *)
Definition evaluates_to (e : Engine) (data : Data) (c : Condition)
    (b : bool) : Prop :=
  exists v fn,
    getValue data (Field c) = (v, true) /\
    ops e !! Op c = Some fn /\
    fn v (Value c) = (b, None).

(** The three ways the evaluation of one condition fails. *)
Inductive fails_with (e : Engine) (data : Data) (c : Condition)
  : error -> Prop :=
| fails_field v :
    getValue data (Field c) = (v, false) ->
    fails_with e data c (ErrFieldNotFound (Field c))
| fails_operator v :
    getValue data (Field c) = (v, true) ->
    ops e !! Op c = None ->
    fails_with e data c (ErrUnknownOperator (Op c))
| fails_comparator v fn m err :
    getValue data (Field c) = (v, true) ->
    ops e !! Op c = Some fn ->
    fn v (Value c) = (m, Some err) ->
    fails_with e data c err.

(** The values [toFloat] accepts. *)
Definition coercible (v : value) : Prop :=
  match v with
  | VFloat64 _ | VFloat32 _ | VInt _ _ | VUint _ _ => True
  | VString s => snd (ParseFloat s) = None
  | _ => False
  end.

(** The logic values that select the AND branch. *)
Definition is_and (l : Logic) : bool :=
  String.eqb l "" || String.eqb l LogicAND.

(* ===================================================================== *)
(** ** The path resolver: properties *)
(* ===================================================================== *)

Lemma Split_dot_nonempty (s : string) : Split_dot s <> [].
Proof.
  destruct s as [|c s]; simpl; [discriminate|].
  destruct (Ascii.eqb c "."); [discriminate|].
  destruct (Split_dot s); discriminate.
Qed.

(** Joining the pieces with dots gives the path back. *)
Lemma Join_Split_dot (s : string) : Join_dot (Split_dot s) = s.
Proof.
  induction s as [|c s IH]; simpl; [reflexivity|].
  destruct (Ascii.eqb_spec c ".") as [->|Hc].
  - pose proof (Split_dot_nonempty s) as Hne.
    simpl. destruct (Split_dot s) as [|h t]; [contradiction|].
    simpl in *. now rewrite IH.
  - pose proof (Split_dot_nonempty s) as Hne.
    destruct (Split_dot s) as [|h t]; [contradiction|].
    destruct t as [|h' t]; simpl in *; now rewrite <- IH.
Qed.

(** No piece holds a dot. *)
Lemma Split_dot_pieces (s : string) :
  Forall (fun p => Contains p "." = false) (Split_dot s).
Proof.
  induction s as [|c s IH]; simpl; [repeat constructor|].
  destruct (Ascii.eqb_spec c ".") as [->|Hc]; [now constructor|].
  pose proof (Split_dot_nonempty s) as Hne.
  destruct (Split_dot s) as [|h t]; [contradiction|].
  inversion IH as [|? ? Hh Ht]; subst. constructor; [|assumption].
  cbn [Contains HasPrefix]. rewrite Hh.
  apply Ascii.eqb_neq in Hc. rewrite Ascii.eqb_sym, Hc. reflexivity.
Qed.

(** Splitting undoes joining, for pieces without dots. *)
Lemma Split_Join_dot (parts : list string) :
  parts <> [] ->
  Forall (fun p => Contains p "." = false) parts ->
  Split_dot (Join_dot parts) = parts.
Proof.
  intros Hne H. induction H as [|p rest Hp Hrest IH]; [contradiction|].
  clear Hne.
  assert (Hcons : forall tail,
             Split_dot (p +:+ String "." (Join_dot tail)) =
             p :: Split_dot (Join_dot tail)).
  { intros tail. induction p as [|c p IHp]; [reflexivity|].
    cbn [Contains HasPrefix] in Hp. apply orb_false_iff in Hp as [Hc Hp].
    rewrite andb_true_r in Hc. simpl.
    rewrite Ascii.eqb_sym, Hc. now rewrite (IHp Hp). }
  destruct rest as [|q rest].
  - simpl. clear IH Hcons. induction p as [|c p IHp]; [reflexivity|].
    cbn [Contains HasPrefix] in Hp. apply orb_false_iff in Hp as [Hc Hp].
    rewrite andb_true_r in Hc. simpl.
    rewrite Ascii.eqb_sym, Hc. now rewrite (IHp Hp).
  - change (Join_dot (p :: q :: rest))
      with (p +:+ String "." (Join_dot (q :: rest))).
    rewrite Hcons. f_equal. apply IH. discriminate.
Qed.

Lemma getValue_loop_found (cur : value) (parts : list string) (v : value) :
  getValue_loop cur parts = (v, true) <-> resolves cur parts v.
Proof.
  split.
  - revert cur. induction parts as [|p rest IH]; intros cur H; simpl in H.
    + injection H as <-. constructor.
    + destruct cur; simpl in H; try discriminate.
      destruct (m !! p) as [w|] eqn:E; [|discriminate].
      econstructor; eauto.
  - induction 1 as [|m p rest w r Hl _ IH]; simpl; [reflexivity|].
    now rewrite Hl.
Qed.

Lemma getValue_loop_not_found (cur : value) (parts : list string) (v : value) :
  getValue_loop cur parts = (v, false) -> v = VNil.
Proof.
  revert cur. induction parts as [|p rest IH]; intros cur H; simpl in H.
  - discriminate.
  - destruct (as_map cur) as [m [|]]; simpl in H.
    + destruct (m !! p) as [w|]; [eauto | now injection H].
    + now injection H.
Qed.

Lemma getValue_loop_app (root : value) (pre rest : list string) (cur : value) :
  resolves root pre cur ->
  getValue_loop root (pre ++ rest) = getValue_loop cur rest.
Proof.
  induction 1 as [|m p ps w r Hl _ IH]; simpl; [reflexivity|].
  now rewrite Hl.
Qed.

(** C6: [getValue] returns the terminal value with [found = true] exactly
    when the record is not nil and every segment of the dot-separated
    path is an existing key of the mapping reached so far; a nil record
    is never found; a missing key, or an intermediate value that is not a
    string-keyed mapping, gives [(nil, false)]. *)
Theorem getValue_spec (data : Data) (path : string) :
  (forall v, getValue data path = (v, true) <->
             exists m, data = Some m /\
                       resolves (VMap m) (Split_dot path) v) /\
  getValue None path = (VNil, false) /\
  (forall pre p post cur m,
      Split_dot path = pre ++ p :: post ->
      resolves (any_of_Data data) pre cur ->
      as_map cur = (m, true) -> m !! p = None ->
      getValue data path = (VNil, false)) /\
  (forall pre p post cur,
      Split_dot path = pre ++ p :: post ->
      resolves (any_of_Data data) pre cur ->
      snd (as_map cur) = false ->
      getValue data path = (VNil, false)).
Proof.
  repeat split.
  - destruct data as [m|]; simpl; [|discriminate].
    intros H. exists m. split; [reflexivity|]. now apply getValue_loop_found.
  - intros (m & -> & H). simpl. now apply getValue_loop_found.
  - intros pre p post cur m Hs Hr Hm Hl.
    destruct data as [m0|]; [|reflexivity].
    unfold getValue. rewrite Hs, (getValue_loop_app _ _ _ _ Hr).
    simpl. now rewrite Hm, Hl.
  - intros pre p post cur Hs Hr Hm.
    destruct data as [m0|]; [|reflexivity].
    unfold getValue. rewrite Hs, (getValue_loop_app _ _ _ _ Hr).
    simpl. destruct (as_map cur) as [m ok]. simpl in Hm. now subst ok.
Qed.

(* ===================================================================== *)
(** ** The evaluator: one condition *)
(* ===================================================================== *)

Lemma evalCondition_evaluates (e : Engine) (data : Data) (c : Condition)
    (b : bool) (t : nat) :
  evaluates_to e data c b ->
  evalCondition e Background c data t = ((b, explain c b, None), S t).
Proof.
  intros (v & fn & Hg & Ho & Hf).
  unfold evalCondition, Background. now rewrite Hg, Ho, Hf.
Qed.

Lemma evalCondition_fails (e : Engine) (data : Data) (c : Condition)
    (err : error) (t : nat) :
  fails_with e data c err ->
  evalCondition e Background c data t = ((false, "", Some err), S t).
Proof.
  unfold evalCondition, Background.
  destruct 1 as [v Hg|v Hg Ho|v fn m err Hg Ho Hf]; rewrite Hg.
  - reflexivity.
  - now rewrite Ho.
  - now rewrite Ho, Hf.
Qed.

(** Under a context that is never cancelled a condition either evaluates
    to a boolean or fails, and never both. *)
Lemma evaluates_or_fails (e : Engine) (data : Data) (c : Condition) :
  (exists b, evaluates_to e data c b) \/ (exists err, fails_with e data c err).
Proof.
  destruct (getValue data (Field c)) as [v [|]] eqn:Hg.
  - destruct (ops e !! Op c) as [fn|] eqn:Ho.
    + destruct (fn v (Value c)) as [m [err|]] eqn:Hf.
      * right. exists err. eapply fails_comparator; eauto.
      * left. exists m, v, fn. auto.
    + right. eexists. eapply fails_operator; eauto.
  - right. eexists. eapply fails_field; eauto.
Qed.

Lemma evaluates_not_fails (e : Engine) (data : Data) (c : Condition)
    (b : bool) (err : error) :
  evaluates_to e data c b -> fails_with e data c err -> False.
Proof.
  intros (v & fn & Hg & Ho & Hf) Hfail.
  destruct Hfail; congruence.
Qed.

(* ===================================================================== *)
(** ** The evaluator: the two loops *)
(* ===================================================================== *)

(** The AND loop walks past every condition that evaluates to true. *)
Lemma and_loop_skip (e : Engine) (data : Data) (pre rest : list Condition) :
  Forall (fun c => evaluates_to e data c true) pre ->
  forall t,
    EvaluateWithContext_and e Background (pre ++ rest) data t =
    EvaluateWithContext_and e Background rest data (length pre + t).
Proof.
  induction 1 as [|c pre Hc _ IH]; intros t; simpl; [reflexivity|].
  rewrite (evalCondition_evaluates _ _ _ _ _ Hc). simpl.
  rewrite IH. f_equal. lia.
Qed.

(** The OR loop walks past every condition that evaluates to false. *)
Lemma or_loop_skip (e : Engine) (data : Data) (pre rest : list Condition) :
  Forall (fun c => evaluates_to e data c false) pre ->
  forall t,
    EvaluateWithContext_or e Background (pre ++ rest) data t =
    EvaluateWithContext_or e Background rest data (length pre + t).
Proof.
  induction 1 as [|c pre Hc _ IH]; intros t; simpl; [reflexivity|].
  rewrite (evalCondition_evaluates _ _ _ _ _ Hc). simpl.
  rewrite IH. f_equal. lia.
Qed.

(** Which loop a rule with at least one condition runs. *)
Lemma Engine_Evaluate_branch (e : Engine) (rule : Rule) (data : Data) :
  Conditions rule <> [] ->
  Engine_Evaluate e rule data =
  if is_and (Rule_Logic rule)
  then EvaluateWithContext_and e Background (Conditions rule) data 1
  else EvaluateWithContext_or e Background (Conditions rule) data 1.
Proof.
  intros Hne. unfold Engine_Evaluate, Engine_EvaluateWithContext, is_and.
  simpl. destruct (Conditions rule) as [|c cs]; [contradiction|].
  change (Nat.eqb (length (c :: cs)) 0) with false. cbv iota.
  destruct (String.eqb (Rule_Logic rule) ""); reflexivity.
Qed.

Lemma is_and_true (l : Logic) :
  is_and l = true <-> l = "" \/ l = LogicAND.
Proof.
  unfold is_and. rewrite orb_true_iff, !String.eqb_eq. reflexivity.
Qed.

(** Whatever the context does, an error never comes with a result. *)
Lemma and_loop_error_zero (e : Engine) (ctx : Context) (data : Data)
    (cs : list Condition) (t : nat) (err : error) :
  snd (EvaluateWithContext_and e ctx cs data t) = Some err ->
  fst (EvaluateWithContext_and e ctx cs data t) = Result_zero.
Proof.
  revert t. induction cs as [|c cs IH]; intros t; simpl; [discriminate|].
  destruct (evalCondition e ctx c data t) as [[[m x] [er|]] t'].
  - reflexivity.
  - destruct m; simpl; [apply IH | discriminate].
Qed.

Lemma or_loop_error_zero (e : Engine) (ctx : Context) (data : Data)
    (cs : list Condition) (t : nat) (err : error) :
  snd (EvaluateWithContext_or e ctx cs data t) = Some err ->
  fst (EvaluateWithContext_or e ctx cs data t) = Result_zero.
Proof.
  revert t. induction cs as [|c cs IH]; intros t; simpl; [discriminate|].
  destruct (evalCondition e ctx c data t) as [[[m x] [er|]] t'].
  - reflexivity.
  - destruct m; simpl; [discriminate | apply IH].
Qed.



(** A context already cancelled is answered before any condition is
    looked at. *)
Lemma EvaluateWithContext_cancelled (e : Engine) (ctx : Context)
    (rule : Rule) (data : Data) (err : error) :
  ctx 0%nat = Some err ->
  Engine_EvaluateWithContext e ctx rule data = (Result_zero, ctx 1%nat).
Proof. intros H. unfold Engine_EvaluateWithContext. now rewrite H. Qed.

(* ===================================================================== *)
(** ** The evaluator: rules *)
(* ===================================================================== *)

(** C7: a rule with no condition matches, with an empty explanation and
    no error, whatever its logic and whatever the record (a nil record
    included), on every engine. *)
Theorem Evaluate_empty (e : Engine) (logic : Logic) (data : Data) :
  Engine_Evaluate e {| Conditions := []; Rule_Logic := logic |} data =
  ({| Matched := true; Explanation := "" |}, None).
Proof. reflexivity. Qed.

(** C1, for rules with at least one condition: under AND logic (["and"]
    or unset) the conditions are taken in declared order; the first one
    that evaluates to false ends the evaluation with its explanation,
    whatever the conditions after it are; if all evaluate to true the
    result is a match explained by ["all conditions met"]. *)
Theorem Evaluate_and (e : Engine) (rule : Rule) (data : Data) :
  Rule_Logic rule = "" \/ Rule_Logic rule = LogicAND ->
  Conditions rule <> [] ->
  (forall pre c post,
      Conditions rule = pre ++ c :: post ->
      Forall (fun c' => evaluates_to e data c' true) pre ->
      evaluates_to e data c false ->
      Engine_Evaluate e rule data =
      ({| Matched := false;
          Explanation := Field c +:+ " " +:+ Op c +:+ " " +:+
                         format_v (Value c) +:+ " → false" |}, None)) /\
  (Forall (fun c => evaluates_to e data c true) (Conditions rule) ->
   Engine_Evaluate e rule data =
   ({| Matched := true; Explanation := "all conditions met" |}, None)).
Proof.
  intros Hl Hne. rewrite Engine_Evaluate_branch by assumption.
  apply is_and_true in Hl. rewrite Hl. split.
  - intros pre c post -> Hpre Hc.
    rewrite and_loop_skip by assumption. simpl.
    now rewrite (evalCondition_evaluates _ _ _ _ _ Hc).
  - intros Hall.
    rewrite <- (app_nil_r (Conditions rule)).
    now rewrite and_loop_skip.
Qed.

(** C2, for rules with at least one condition: under OR logic the
    conditions are taken in declared order; a failing condition aborts
    with its error; the first one that evaluates to true ends the
    evaluation with its explanation, whatever the conditions after it
    are; if all evaluate to false the result is a non-match explained by
    ["no conditions met"]. *)
Theorem Evaluate_or (e : Engine) (rule : Rule) (data : Data) :
  Rule_Logic rule = LogicOR ->
  Conditions rule <> [] ->
  (forall pre c post,
      Conditions rule = pre ++ c :: post ->
      Forall (fun c' => evaluates_to e data c' false) pre ->
      evaluates_to e data c true ->
      Engine_Evaluate e rule data =
      ({| Matched := true;
          Explanation := Field c +:+ " " +:+ Op c +:+ " " +:+
                         format_v (Value c) +:+ " → true" |}, None)) /\
  (forall pre c post err,
      Conditions rule = pre ++ c :: post ->
      Forall (fun c' => evaluates_to e data c' false) pre ->
      fails_with e data c err ->
      Engine_Evaluate e rule data = (Result_zero, Some err)) /\
  (Forall (fun c => evaluates_to e data c false) (Conditions rule) ->
   Engine_Evaluate e rule data =
   ({| Matched := false; Explanation := "no conditions met" |}, None)).
Proof.
  intros Hl Hne. rewrite Engine_Evaluate_branch by assumption.
  rewrite Hl. change (is_and LogicOR) with false. cbv iota.
  split; [|split].
  - intros pre c post -> Hpre Hc.
    rewrite or_loop_skip by assumption. simpl.
    now rewrite (evalCondition_evaluates _ _ _ _ _ Hc).
  - intros pre c post err -> Hpre Hc.
    rewrite or_loop_skip by assumption. simpl.
    now rewrite (evalCondition_fails _ _ _ _ _ Hc).
  - intros Hall.
    rewrite <- (app_nil_r (Conditions rule)).
    now rewrite or_loop_skip.
Qed.

(** C3: when the conditions before [c] let the evaluation go on (they
    evaluate to true under AND, to false under OR) and [c] fails -- its
    field does not resolve, its operator is not registered, or its
    operator returns an error -- the evaluation returns that error, which
    names the field or the operator in the first two cases, together with
    the zero [Result].  And on every context, whenever an error is
    returned the result beside it is the zero [Result]. *)
Theorem Evaluate_error (e : Engine) (rule : Rule) (data : Data) :
  (forall pre c post,
      Conditions rule = pre ++ c :: post ->
      Forall (fun c' => evaluates_to e data c' (is_and (Rule_Logic rule)))
             pre ->
      (snd (getValue data (Field c)) = false ->
       Engine_Evaluate e rule data =
       (Result_zero, Some (ErrFieldNotFound (Field c)))) /\
      (snd (getValue data (Field c)) = true ->
       ops e !! Op c = None ->
       Engine_Evaluate e rule data =
       (Result_zero, Some (ErrUnknownOperator (Op c)))) /\
      (forall fn m err,
          snd (getValue data (Field c)) = true ->
          ops e !! Op c = Some fn ->
          fn (fst (getValue data (Field c))) (Value c) = (m, Some err) ->
          Engine_Evaluate e rule data = (Result_zero, Some err))) /\
  (forall ctx err,
      snd (Engine_EvaluateWithContext e ctx rule data) = Some err ->
      fst (Engine_EvaluateWithContext e ctx rule data) = Result_zero).
Proof.
  split.
  - intros pre c post Hcs Hpre.
    assert (Hfail : forall err, fails_with e data c err ->
              Engine_Evaluate e rule data = (Result_zero, Some err)).
    { intros err Hc.
      rewrite Engine_Evaluate_branch by (rewrite Hcs; now destruct pre).
      rewrite Hcs. destruct (is_and (Rule_Logic rule)).
      - rewrite and_loop_skip by assumption. simpl.
        now rewrite (evalCondition_fails _ _ _ _ _ Hc).
      - rewrite or_loop_skip by assumption. simpl.
        now rewrite (evalCondition_fails _ _ _ _ _ Hc). }
    destruct (getValue data (Field c)) as [v ok] eqn:Hg. simpl.
    split; [|split].
    + intros ->. apply Hfail. eapply fails_field; eauto.
    + intros -> Ho. apply Hfail. eapply fails_operator; eauto.
    + intros fn m err -> Ho Hf. apply Hfail. eapply fails_comparator; eauto.
  - intros ctx err. unfold Engine_EvaluateWithContext.
    destruct (ctx 0%nat); [reflexivity|].
    destruct (Nat.eqb _ _); [discriminate|].
    destruct (String.eqb _ LogicAND).
    + apply and_loop_error_zero.
    + apply or_loop_error_zero.
Qed.

(** C10: on rules with at least one condition, every logic value other
    than [""] and ["and"] is evaluated as ["or"]; [""] is evaluated as
    ["and"]; and the logic values evaluated as ["and"] on every engine,
    rule and record are exactly [""] and ["and"]. *)
Theorem Evaluate_logic :
  (forall e cs data l,
      cs <> [] -> l <> "" -> l <> LogicAND ->
      Engine_Evaluate e {| Conditions := cs; Rule_Logic := l |} data =
      Engine_Evaluate e {| Conditions := cs; Rule_Logic := LogicOR |} data) /\
  (forall e cs data,
      Engine_Evaluate e {| Conditions := cs; Rule_Logic := "" |} data =
      Engine_Evaluate e {| Conditions := cs; Rule_Logic := LogicAND |} data) /\
  (forall l,
      (forall e cs data,
          cs <> [] ->
          Engine_Evaluate e {| Conditions := cs; Rule_Logic := l |} data =
          Engine_Evaluate e {| Conditions := cs; Rule_Logic := LogicAND |}
                          data)
      <-> l = "" \/ l = LogicAND).
Proof.
  split; [|split].
  - intros e cs data l Hne H1 H2.
    rewrite !Engine_Evaluate_branch by assumption. simpl.
    destruct (is_and l) eqn:E; [|reflexivity].
    apply is_and_true in E. destruct E; contradiction.
  - intros e [|c cs] data; [reflexivity|].
    now rewrite !Engine_Evaluate_branch.
  - intros l. split.
    + intros H.
      destruct (is_and l) eqn:E; [now apply is_and_true|]. exfalso.
      pose (yes := (fun _ _ : value => (true, @None error))).
      pose (no := (fun _ _ : value => (false, @None error))).
      pose (e := {| ops := <["yes" := yes]> (<["no" := no]> ∅) |}).
      pose (c1 := {| Field := "x"; Op := "yes"; Value := VNil |}).
      pose (c2 := {| Field := "x"; Op := "no"; Value := VNil |}).
      specialize (H e [c1; c2] (Some {["x" := VNil]})).
      rewrite !Engine_Evaluate_branch in H by discriminate.
      simpl in H. rewrite E in H.
      specialize (H ltac:(discriminate)).
      vm_compute in H. discriminate H.
    + intros Hl e cs data Hne.
      rewrite !Engine_Evaluate_branch by assumption. simpl.
      apply is_and_true in Hl. now rewrite Hl.
Qed.

(* ===================================================================== *)
(** ** Deep equality *)
(* ===================================================================== *)

Lemma value_size_elem (xs : list value) (x : value) :
  x ∈ xs -> value_size x < value_size (VSlice xs).
Proof.
  simpl. induction 1 as [x xs|x y xs _ IH]; simpl; lia.
Qed.

Lemma value_size_lookup (m : gmap string value) (k : string) (v : value) :
  m !! k = Some v -> value_size v < value_size (VMap m).
Proof.
  intros H. apply elem_of_map_to_list in H.
  simpl. rewrite map_fold_foldr.
  induction (map_to_list m) as [|[k' v'] l IH]; [inversion H|].
  simpl. inversion H; subst; [lia|]. specialize (IH ltac:(assumption)). lia.
Qed.

(** Induction on values that reaches the elements of slices and maps. *)
Lemma value_deep_ind (P : value -> Prop) :
  P VNil ->
  (forall b, P (VBool b)) ->
  (forall f, P (VFloat64 f)) ->
  (forall f, P (VFloat32 f)) ->
  (forall k n, P (VInt k n)) ->
  (forall k n, P (VUint k n)) ->
  (forall s, P (VString s)) ->
  P VSliceNil ->
  (forall xs, Forall P xs -> P (VSlice xs)) ->
  P VMapNil ->
  (forall m, (forall k v, m !! k = Some v -> P v) -> P (VMap m)) ->
  forall v, P v.
Proof.
  intros Hnil Hbool Hf64 Hf32 Hint Huint Hstr Hsn Hslice Hmn Hmap v.
  remember (value_size v) as n eqn:Hn. revert v Hn.
  induction (lt_wf n) as [n _ IH]. intros v ->.
  destruct v; auto.
  - apply Hslice. apply Forall_forall. intros x Hx.
    eapply IH; [|reflexivity]. now apply value_size_elem.
  - apply Hmap. intros k v Hk.
    eapply IH; [|reflexivity]. eapply value_size_lookup, Hk.
Qed.

Lemma all2_Forall2 {A B} (f : A -> B -> bool) (R : A -> B -> Prop)
    (xs : list A) (ys : list B) :
  Forall (fun x => forall y, f x y = true <-> R x y) xs ->
  all2 f xs ys = true <-> Forall2 R xs ys.
Proof.
  intros H. revert ys.
  induction H as [|x xs Hx _ IH]; intros [|y ys]; simpl.
  - split; [constructor | reflexivity].
  - split; [discriminate | inversion 1].
  - split; [discriminate | inversion 1].
  - rewrite andb_true_iff, Hx, IH. split.
    + intros [? ?]. now constructor.
    + inversion 1; subst. auto.
Qed.

(** The fold over the keys of a map is true when its test is true of
    every entry. *)
Lemma map_fold_andb (g : string -> value -> bool) (m : gmap string value) :
  map_fold (fun k v acc => acc && g k v) true m = true <->
  forall k v, m !! k = Some v -> g k v = true.
Proof.
  rewrite map_fold_foldr.
  assert (Hl : forall l : list (string * value),
             foldr (uncurry (fun k v acc => acc && g k v)) true l = true <->
             forall k v, (k, v) ∈ l -> g k v = true).
  { induction l as [|[k v] l IH]; simpl.
    - split; [intros _ k v H; inversion H | reflexivity].
    - rewrite andb_true_iff, IH. split.
      + intros [Hl Hg] k' v' H. inversion H; subst; auto.
      + intros H. split; [intros k' v' Hin|]; apply H; now constructor. }
  rewrite Hl. split; intros H k v Hk; apply H; now apply elem_of_map_to_list.
Qed.

(** Two maps of the same size, the keys of the first among those of the
    second, have the same keys. *)
Lemma same_size_same_keys (m1 m2 : gmap string value) :
  size m1 = size m2 ->
  (forall k, is_Some (m1 !! k) -> is_Some (m2 !! k)) ->
  forall k, m1 !! k = None -> m2 !! k = None.
Proof.
  intros Hsize Hsub k Hk.
  assert (Hdom : dom m1 = dom m2).
  { apply set_subseteq_size_eq.
    - intros j. rewrite !elem_of_dom. apply Hsub.
    - rewrite !size_dom. lia. }
  apply not_elem_of_dom. rewrite <- Hdom. now apply not_elem_of_dom.
Qed.

(** [DeepEqual] decides [deep_eq]. *)
Lemma DeepEqual_deep_eq (a : value) :
  forall b, DeepEqual a b = true <-> deep_eq a b.
Proof.
  induction a as [|x|x|x|k x|k x|x| |xs IH| |m1 IH] using value_deep_ind;
    intros b; destruct b as [|y|y|y|k' y|k' y|y| |ys| |m2]; simpl;
    try (split; [discriminate | now inversion 1]);
    try (split; [constructor | reflexivity]).
  - rewrite Bool.eqb_true_iff. split; [intros ->; constructor | now inversion 1].
  - split; [now constructor | now inversion 1].
  - split; [now constructor | now inversion 1].
  - rewrite andb_true_iff, bool_decide_eq_true, Z.eqb_eq. split.
    + intros [-> ->]. constructor.
    + now inversion 1.
  - rewrite andb_true_iff, bool_decide_eq_true, Z.eqb_eq. split.
    + intros [-> ->]. constructor.
    + now inversion 1.
  - rewrite String.eqb_eq. split; [intros ->; constructor | now inversion 1].
  - rewrite (all2_Forall2 DeepEqual deep_eq xs ys IH).
    split; [now constructor | now inversion 1].
  - rewrite andb_true_iff, Nat.eqb_eq, map_fold_andb. split.
    + intros [Hsize Hall]. constructor. intros k.
      destruct (m1 !! k) as [v1|] eqn:E1.
      * specialize (Hall k v1 E1).
        destruct (m2 !! k) as [v2|]; [|discriminate].
        constructor. now apply (IH k v1 E1).
      * rewrite (same_size_same_keys m1 m2 Hsize); [constructor| |exact E1].
        intros j [v Hj]. specialize (Hall j v Hj).
        destruct (m2 !! j); [eauto | discriminate].
    + inversion 1 as [| | | | | | | | | |? ? Hrel]; subst. split.
      * rewrite <- !(size_dom (D := gset string)). f_equal.
        apply set_eq. intros k. rewrite !elem_of_dom.
        specialize (Hrel k). inversion Hrel; split; intros [? ?]; eauto;
          congruence.
      * intros k v1 Hk. specialize (Hrel k). rewrite Hk in Hrel.
        inversion Hrel as [? v2 Hd|]; subst. now apply (IH k v1 Hk).
Qed.

Lemma Forall2_identity {A} (R : A -> A -> Prop) (xs ys : list A) :
  Forall (fun x => forall y, R x y <-> x = y) xs ->
  Forall2 R xs ys <-> xs = ys.
Proof.
  intros H. revert ys. induction H as [|x xs Hx _ IH]; intros ys.
  - split; [now inversion 1 | intros <-; constructor].
  - split.
    + inversion 1 as [|? y ? ys' Hxy Hrest]; subst.
      f_equal; [now apply Hx | now apply IH].
    + intros <-. constructor; [now apply Hx | now apply IH].
Qed.

(** Where no float is involved, deep equality is identity. *)
Lemma deep_eq_float_free (a : value) :
  float_free a -> forall b, deep_eq a b <-> a = b.
Proof.
  induction a as [|x|x|x|k x|k x|x| |xs IH| |m1 IH] using value_deep_ind;
    intros Hff b; try (now inversion Hff);
    try (split; [now inversion 1 | intros <-; constructor]).
  - assert (Hxs : Forall (fun x => forall y, deep_eq x y <-> x = y) xs).
    { inversion Hff as [| | | | | |? Hfxs| |]; subst.
      rewrite Forall_forall in *. auto. }
    split.
    + inversion 1 as [| | | | | | | |? ys Hrel| |]; subst. f_equal.
      now apply (Forall2_identity deep_eq).
    + intros <-. constructor. now apply (Forall2_identity deep_eq).
  - inversion Hff as [| | | | | | | |? Hm]; subst. split.
    + inversion 1 as [| | | | | | | | | |? m2 Hrel]; subst. f_equal.
      apply map_eq. intros k. specialize (Hrel k).
      destruct (m1 !! k) as [v1|] eqn:E1;
        inversion Hrel as [? v2 Hd|]; subst; [|reflexivity].
      f_equal. now apply (IH k v1 E1 (Hm k v1 E1) v2).
    + intros <-. constructor. intros k.
      destruct (m1 !! k) as [v1|] eqn:E1; constructor.
      now apply (IH k v1 E1 (Hm k v1 E1) v1).
Qed.

(* ===================================================================== *)
(** ** The comparators *)
(* ===================================================================== *)

(** The operators an engine starts with. *)
Lemma New_ops :
  ops New !! OperatorEQ = Some op_eq /\
  ops New !! OperatorNE = Some op_ne /\
  ops New !! OperatorGT = Some greater /\
  ops New !! OperatorGTE = Some op_gte /\
  ops New !! OperatorLT = Some op_lt /\
  ops New !! OperatorLTE = Some op_lte /\
  ops New !! OperatorContains = Some contains /\
  ops New !! OperatorIn = Some in_.
Proof. repeat split; vm_compute; reflexivity. Qed.

Lemma toFloat_coercible (v : value) :
  snd (toFloat v) = true <-> coercible v.
Proof.
  destruct v; simpl; try tauto; try (split; [discriminate | contradiction]).
  destruct (ParseFloat s) as [f [err|]]; simpl; split; congruence.
Qed.

Lemma toFloat_not_coercible (v : value) :
  ~ coercible v -> toFloat v = (0%float, false).
Proof.
  destruct v; simpl; try tauto.
  destruct (ParseFloat s) as [f [err|]]; simpl; tauto.
Qed.

(** C5: when both operands are accepted by the numeric coercion -- floats
    and integers of every width, and the strings [ParseFloat] reads; not
    nil, booleans, slices, maps or other strings -- [gt], [gte], [lt] and
    [lte] return the comparison of the two [float64] values and no error;
    otherwise each returns false together with a type-mismatch error that
    names the comparison. *)
Theorem ordering_spec (a b : value) :
  (coercible a -> coercible b ->
   greater a b = (PrimFloat.ltb (fst (toFloat b)) (fst (toFloat a)), None) /\
   greaterOrEqual a b =
     (PrimFloat.leb (fst (toFloat b)) (fst (toFloat a)), None) /\
   less a b = (PrimFloat.ltb (fst (toFloat a)) (fst (toFloat b)), None) /\
   lessOrEqual a b =
     (PrimFloat.leb (fst (toFloat a)) (fst (toFloat b)), None)) /\
  (~ coercible a \/ ~ coercible b ->
   greater a b = (false, Some (Errorf "type mismatch for >")) /\
   greaterOrEqual a b = (false, Some (Errorf "type mismatch for >=")) /\
   less a b = (false, Some (Errorf "type mismatch for <")) /\
   lessOrEqual a b = (false, Some (Errorf "type mismatch for <="))) /\
  (forall v, snd (toFloat v) = true <-> coercible v) /\
  (forall k n, toFloat (VInt k n) = (float64_of_Z n, true)) /\
  (forall k n, toFloat (VUint k n) = (float64_of_Z n, true)) /\
  (forall f, toFloat (VFloat64 f) = (f, true)) /\
  (forall f, toFloat (VFloat32 f) = (f, true)) /\
  (forall s f, ParseFloat s = (f, None) -> toFloat (VString s) = (f, true)) /\
  ops New !! OperatorGT = Some greater /\
  ops New !! OperatorGTE = Some greaterOrEqual /\
  ops New !! OperatorLT = Some less /\
  ops New !! OperatorLTE = Some lessOrEqual.
Proof.
  split; [|split; [|split]].
  - intros Ha Hb. apply toFloat_coercible in Ha, Hb.
    unfold greater, greaterOrEqual, less, lessOrEqual.
    destruct (toFloat a) as [fa oka], (toFloat b) as [fb okb].
    simpl in *. subst. auto.
  - intros H.
    unfold greater, greaterOrEqual, less, lessOrEqual.
    destruct H as [H|H]; rewrite (toFloat_not_coercible _ H).
    + destruct (toFloat b) as [fb okb]. auto.
    + destruct (toFloat a) as [fa [|]]; auto.
  - apply toFloat_coercible.
  - repeat split; try apply New_ops.
    intros s f H. simpl. now rewrite H.
Qed.

(* ----- equality ----- *)

(** C4: [eq] is true exactly when the operands are deeply equal (as
    [reflect] defines it) or both coerce to floats that are equal; [ne]
    is its negation; neither returns an error.  [eq(100, 100.0)] holds;
    with a parser that reads ["100"] as 100, [eq("100", 100)] holds; with
    a parser that refuses ["abc"], [eq("abc", 100)] does not. *)
Theorem equal_spec :
  (forall a b,
      equal a b = true <->
      deep_eq a b \/
      (coercible a /\ coercible b /\
       PrimFloat.eqb (fst (toFloat a)) (fst (toFloat b)) = true)) /\
  (forall a b, op_eq a b = (equal a b, None)) /\
  (forall a b, op_ne a b = (negb (equal a b), None)) /\
  ops New !! OperatorEQ = Some op_eq /\
  ops New !! OperatorNE = Some op_ne /\
  equal (VInt KInt 100) (VFloat64 100%float) = true /\
  (ParseFloat "100" = (100%float, None) ->
   equal (VString "100") (VInt KInt 100) = true) /\
  (snd (ParseFloat "abc") <> None ->
   equal (VString "abc") (VInt KInt 100) = false).
Proof.
  clear format_v.
  split; [|repeat split; try apply New_ops].
  - intros a b. rewrite <- DeepEqual_deep_eq. unfold equal.
    destruct (DeepEqual a b); [tauto|].
    rewrite <- !toFloat_coercible.
    destruct (toFloat a) as [fa [|]], (toFloat b) as [fb [|]]; simpl;
      intuition congruence.
  - intros H100. unfold equal. simpl. rewrite H100. vm_compute. reflexivity.
  - intros Habc. unfold equal. simpl.
    destruct (ParseFloat "abc") as [f [err|]]; [reflexivity|].
    now contradiction Habc.
Qed.

(** A NaN is not equal to itself, nor is a value that holds one. *)
Remark equal_nan :
  equal (VFloat64 nan) (VFloat64 nan) = false /\
  equal (VSlice [VFloat64 nan]) (VSlice [VFloat64 nan]) = false.
Proof. split; reflexivity. Qed.

(* ----- substring ----- *)

Lemma HasPrefix_spec (s p : string) :
  HasPrefix s p = true <-> exists post, s = p +:+ post.
Proof.
  revert s. induction p as [|c p IH]; intros s; simpl.
  - split; [exists s; reflexivity | reflexivity].
  - destruct s as [|d s].
    + split; [discriminate | intros [post H]; discriminate].
    + rewrite andb_true_iff, Ascii.eqb_eq, IH. split.
      * intros [-> [post ->]]. now exists post.
      * intros [post H]. injection H as -> ->. eauto.
Qed.

Lemma Contains_spec (s sub : string) :
  Contains s sub = true <-> Substring sub s.
Proof.
  unfold Substring. induction s as [|d s IH].
  - simpl. rewrite orb_false_r, HasPrefix_spec. split.
    + intros [post H]. now exists "", post.
    + intros ([|c pre] & post & H); [now exists post | discriminate].
  - cbn [Contains]. rewrite orb_true_iff, HasPrefix_spec, IH. split.
    + intros [[post H]|(pre & post & H)].
      * now exists "", post.
      * exists (String d pre), post. simpl. now rewrite H.
    + intros ([|c pre] & post & H).
      * left. now exists post.
      * right. injection H as -> ->. now exists pre, post.
Qed.

(** C9: on two strings [contains] returns, without error, whether the
    second occurs in the first as a contiguous substring; if either
    operand is not a string it returns false together with a
    type-mismatch error, as for [contains(42, "4")]. *)
Theorem contains_spec (a b : value) :
  (forall s sub,
      a = VString s -> b = VString sub ->
      exists r, contains a b = (r, None) /\ (r = true <-> Substring sub s)) /\
  ((forall s, a <> VString s) \/ (forall s, b <> VString s) ->
   contains a b = (false, Some (Errorf "type mismatch for contains"))) /\
  contains (VInt KInt 42) (VString "4") =
    (false, Some (Errorf "type mismatch for contains")) /\
  ops New !! OperatorContains = Some contains.
Proof.
  split; [|split; [|split]].
  - intros s sub -> ->. exists (Contains s sub).
    split; [reflexivity | apply Contains_spec].
  - intros [H|H].
    + destruct a; try reflexivity. now contradiction (H s).
    + destruct a; try reflexivity.
      destruct b; try reflexivity. now contradiction (H s0).
  - reflexivity.
  - apply New_ops.
Qed.

(* ----- membership ----- *)

Lemma in_loop_spec (a : value) (slice : list value) :
  exists r, in_loop a slice = (r, None) /\
            (r = true <-> Exists (fun item => equal a item = true) slice).
Proof.
  clear format_v.
  induction slice as [|item rest (r & Hr & IH)]; simpl.
  - exists false. split; [reflexivity|]. rewrite Exists_nil.
    intuition discriminate.
  - destruct (equal a item) eqn:E.
    + exists true. split; [reflexivity|]. rewrite Exists_cons. tauto.
    + exists r. split; [assumption|]. rewrite Exists_cons, IH.
      intuition congruence.
Qed.

(** C8, with the message the code gives: when the second operand is not
    a slice, [in] returns false together with the error
    ["in requires slice value"]; on a slice it returns, without error,
    whether some element is [equal] to the first operand (none is, in a
    nil slice). *)
Theorem in_spec (a b : value) :
  (b <> VSliceNil -> (forall xs, b <> VSlice xs) ->
   in_ a b = (false, Some (Errorf "in requires slice value"))) /\
  (forall xs,
      b = VSlice xs ->
      exists r, in_ a b = (r, None) /\
                (r = true <-> exists item, item ∈ xs /\ equal a item = true)) /\
  (b = VSliceNil -> in_ a b = (false, None)) /\
  ops New !! OperatorIn = Some in_.
Proof.
  split; [|split; [|split]].
  - intros H1 H2. destruct b; try reflexivity.
    + contradiction.
    + now contradiction (H2 xs).
  - intros xs ->. unfold in_. simpl.
    destruct (in_loop_spec a xs) as (r & Hr & Hiff).
    exists r. split; [assumption|]. now rewrite Hiff, Exists_exists.
  - now intros ->.
  - apply New_ops.
Qed.

(* ===================================================================== *)
(** ** Further properties of the path resolver *)
(* ===================================================================== *)

Lemma Split_dot_dotfree (key : string) :
  Contains key "." = false -> Split_dot key = [key].
Proof.
  intros H. apply (Split_Join_dot [key]); [discriminate|].
  now repeat constructor.
Qed.

Lemma Split_dot_app (p q : string) :
  Split_dot (p +:+ String "." q) = Split_dot p ++ Split_dot q.
Proof.
  induction p as [|c p IH]; simpl; [reflexivity|].
  rewrite IH. destruct (Ascii.eqb c "."); [reflexivity|].
  pose proof (Split_dot_nonempty p) as Hne.
  now destruct (Split_dot p).
Qed.

Lemma getValue_loop_app_gen (root : value) (pre rest : list string) :
  getValue_loop root (pre ++ rest) =
  let '(cur, ok) := getValue_loop root pre in
  if ok then getValue_loop cur rest else (VNil, false).
Proof.
  revert root. induction pre as [|p pre IH]; intros root; simpl.
  - reflexivity.
  - destruct (as_map root) as [m [|]]; simpl; [|reflexivity].
    destruct (m !! p) as [v|]; [apply IH | reflexivity].
Qed.

(** X1: a path without a dot is a plain lookup in the record: the value
    stored under that key, nil included, is found; an absent key is not. *)
Theorem getValue_plain_key (m : gmap string value) (key : string) :
  Contains key "." = false ->
  getValue (Some m) key =
  match m !! key with
  | Some v => (v, true)
  | None => (VNil, false)
  end.
Proof.
  intros H. unfold getValue. rewrite (Split_dot_dotfree key H). simpl.
  now destruct (m !! key).
Qed.

(** X2: resolving [p.q] is resolving [p] and then [q] inside what [p]
    gave: a non-nil mapping found at [p] is searched for [q] as a record
    of its own; any other value found at [p], and [p] not found, make
    [p.q] not found. *)
Theorem getValue_compose (data : Data) (p q : string) :
  (forall m',
      getValue data p = (VMap m', true) ->
      getValue data (p +:+ "." +:+ q) = getValue (Some m') q) /\
  (forall v,
      getValue data p = (v, true) -> (forall m', v <> VMap m') ->
      getValue data (p +:+ "." +:+ q) = (VNil, false)) /\
  (forall v,
      getValue data p = (v, false) ->
      getValue data (p +:+ "." +:+ q) = (VNil, false)).
Proof.
  change ("." +:+ q) with (String "."%char q).
  destruct data as [m|]; [|repeat split; intros; try reflexivity; discriminate].
  unfold getValue. rewrite Split_dot_app, getValue_loop_app_gen.
  destruct (getValue_loop (any_of_Data (Some m)) (Split_dot p)) as [cur ok].
  split; [|split].
  - now intros m' [= -> ->].
  - intros v [= -> ->] Hv.
    pose proof (Split_dot_nonempty q) as Hne.
    destruct (Split_dot q) as [|h t]; [contradiction|].
    destruct v; try reflexivity. now contradiction (Hv m0).
  - now intros v [= -> ->].
Qed.

(** X3: a key of the record that itself holds a dot is out of reach: no
    path finds it, so no lookup changes when it is deleted. *)
Theorem getValue_dotted_key (m : gmap string value) (k path : string) :
  Contains k "." = true ->
  getValue (Some (delete k m)) path = getValue (Some m) path.
Proof.
  intros Hk. unfold getValue.
  pose proof (Split_dot_pieces path) as Hp.
  pose proof (Split_dot_nonempty path) as Hne.
  destruct (Split_dot path) as [|h t]; [contradiction|]. simpl.
  inversion Hp as [|? ? Hh _]; subst.
  rewrite lookup_delete_ne; [reflexivity|]. intros ->. congruence.
Qed.

(** X4: whenever [getValue] reports not-found, the value beside it is
    nil. *)
Theorem getValue_not_found (data : Data) (path : string) (v : value) :
  getValue data path = (v, false) -> v = VNil.
Proof.
  destruct data as [m|]; simpl.
  - apply getValue_loop_not_found.
  - now intros [= <-].
Qed.

(* ===================================================================== *)
(** ** Further properties of the registry *)
(* ===================================================================== *)

Lemma evalCondition_Register_ne (e : Engine) (op : Operator) (fn : OpFunc)
    (ctx : Context) (c : Condition) (data : Data) (t : nat) :
  Op c <> op ->
  evalCondition (Register e op fn) ctx c data t = evalCondition e ctx c data t.
Proof.
  intros H. unfold evalCondition, Register. simpl.
  rewrite lookup_insert_ne by congruence. reflexivity.
Qed.

(** X5: registering an operator changes nothing for rules that do not
    use its name, on every context and record. *)
Theorem Register_frame (e : Engine) (op : Operator) (fn : OpFunc)
    (ctx : Context) (rule : Rule) (data : Data) :
  Forall (fun c => Op c <> op) (Conditions rule) ->
  Engine_EvaluateWithContext (Register e op fn) ctx rule data =
  Engine_EvaluateWithContext e ctx rule data.
Proof.
  intros H. unfold Engine_EvaluateWithContext.
  destruct (ctx 0%nat); [reflexivity|].
  destruct (Nat.eqb _ _); [reflexivity|].
  generalize 1%nat as t.
  destruct (String.eqb _ LogicAND);
    induction H as [|c cs Hc _ IH]; intros t; simpl; try reflexivity;
    rewrite (evalCondition_Register_ne _ _ _ _ _ _ _ Hc);
    destruct (evalCondition e ctx c data t) as [[[m x] [er|]] t'];
    try reflexivity; now rewrite IH.
Qed.

(** X6: a condition whose operator was registered last with [fn] gets
    exactly what [fn] returns on the field's value and the condition's
    value, whatever the name held before (a built-in included): its error
    aborts, and otherwise its boolean decides the one-condition rule.
    The later of two registrations under one name wins. *)
Theorem Register_honoured (e : Engine) (c : Condition) (fn : OpFunc)
    (logic : Logic) (data : Data) (v : value) :
  getValue data (Field c) = (v, true) ->
  Engine_Evaluate (Register e (Op c) fn)
                  {| Conditions := [c]; Rule_Logic := logic |} data =
  match fn v (Value c) with
  | (_, Some err) => (Result_zero, Some err)
  | (matched, None) =>
      ({| Matched := matched;
          Explanation :=
            if is_and logic
            then if matched then "all conditions met" else explain c false
            else if matched then explain c true else "no conditions met" |},
       None)
  end /\
  (forall fn0, Register (Register e (Op c) fn0) (Op c) fn =
               Register e (Op c) fn).
Proof.
  intros Hg. split.
  - rewrite Engine_Evaluate_branch by discriminate. simpl.
    destruct (is_and logic); simpl; unfold evalCondition, Background;
      rewrite Hg; simpl; rewrite lookup_insert_eq;
      destruct (fn v (Value c)) as [[|] [err|]]; reflexivity.
  - intros fn0. unfold Register. simpl. now rewrite insert_insert_eq.
Qed.

(** X7: a new engine knows the eight built-in names and no other; names
    are compared exactly, so ["EQ"] or ["=="] are unknown. *)
Theorem New_operator_names (op : Operator) :
  is_Some (ops New !! op) <->
  op ∈ [OperatorEQ; OperatorNE; OperatorGT; OperatorGTE;
        OperatorLT; OperatorLTE; OperatorContains; OperatorIn].
Proof.
  clear format_v.
  unfold New, registerDefaults, Register. simpl.
  rewrite !lookup_insert_is_Some', lookup_empty, is_Some_alt.
  rewrite !elem_of_cons, elem_of_nil.
  intuition congruence.
Qed.

(* ===================================================================== *)
(** ** Further properties of the evaluator *)
(* ===================================================================== *)

Lemma evalCondition_at (e : Engine) (ctx : Context) (c : Condition)
    (data : Data) (t : nat) :
  ctx t = None ->
  evalCondition e ctx c data t = evalCondition e Background c data t.
Proof. intros H. unfold evalCondition, Background. now rewrite H. Qed.

Lemma and_loop_skip_ctx (e : Engine) (ctx : Context) (data : Data)
    (pre rest : list Condition) :
  Forall (fun c => evaluates_to e data c true) pre ->
  forall t,
    (forall n, t <= n < t + length pre -> ctx n = None) ->
    EvaluateWithContext_and e ctx (pre ++ rest) data t =
    EvaluateWithContext_and e ctx rest data (length pre + t).
Proof.
  induction 1 as [|c pre Hc _ IH]; intros t Hctx; simpl; [reflexivity|].
  rewrite evalCondition_at by (apply Hctx; simpl; lia).
  rewrite (evalCondition_evaluates _ _ _ _ _ Hc). simpl.
  rewrite IH by (intros n Hn; apply Hctx; simpl; lia). f_equal. lia.
Qed.

Lemma or_loop_skip_ctx (e : Engine) (ctx : Context) (data : Data)
    (pre rest : list Condition) :
  Forall (fun c => evaluates_to e data c false) pre ->
  forall t,
    (forall n, t <= n < t + length pre -> ctx n = None) ->
    EvaluateWithContext_or e ctx (pre ++ rest) data t =
    EvaluateWithContext_or e ctx rest data (length pre + t).
Proof.
  induction 1 as [|c pre Hc _ IH]; intros t Hctx; simpl; [reflexivity|].
  rewrite evalCondition_at by (apply Hctx; simpl; lia).
  rewrite (evalCondition_evaluates _ _ _ _ _ Hc). simpl.
  rewrite IH by (intros n Hn; apply Hctx; simpl; lia). f_equal. lia.
Qed.

(** X8: cancellation wins over everything else.  A context already
    cancelled when the evaluation starts gives its error and the zero
    [Result] for every rule, the empty one included; a context that is
    cancelled when a condition is about to be evaluated gives its error
    and the zero [Result] although the conditions before it passed, and
    the condition is not looked at. *)
Theorem EvaluateWithContext_cancellation (e : Engine) (ctx : Context)
    (rule : Rule) (data : Data) (err : error) :
  (ctx 0%nat = Some err -> ctx 1%nat = Some err ->
   Engine_EvaluateWithContext e ctx rule data = (Result_zero, Some err)) /\
  (forall pre c post,
      Conditions rule = pre ++ c :: post ->
      Forall (fun c' => evaluates_to e data c' (is_and (Rule_Logic rule)))
             pre ->
      (forall n, n <= length pre -> ctx n = None) ->
      ctx (S (length pre)) = Some err ->
      ctx (S (S (length pre))) = Some err ->
      Engine_EvaluateWithContext e ctx rule data = (Result_zero, Some err)).
Proof.
  split.
  - intros H0 H1. unfold Engine_EvaluateWithContext. now rewrite H0, H1.
  - intros pre c post Hcs Hpre Hlive Hc1 Hc2.
    unfold Engine_EvaluateWithContext.
    rewrite (Hlive 0%nat) by lia. rewrite Hcs.
    replace (Nat.eqb (length (pre ++ c :: post)) 0) with false
      by (now destruct pre).
    fold (is_and (Rule_Logic rule)) in Hpre.
    assert (Hb : String.eqb
                   (if String.eqb (Rule_Logic rule) "" then LogicAND
                    else Rule_Logic rule) LogicAND = is_and (Rule_Logic rule)).
    { unfold is_and. now destruct (String.eqb (Rule_Logic rule) ""). }
    cbv zeta. rewrite Hb.
    destruct (is_and (Rule_Logic rule)).
    + rewrite and_loop_skip_ctx
        by (try assumption; intros n Hn; apply Hlive; lia).
      simpl. unfold evalCondition.
      replace (length pre + 1)%nat with (S (length pre)) by lia.
      now rewrite Hc1, Hc2.
    + rewrite or_loop_skip_ctx
        by (try assumption; intros n Hn; apply Hlive; lia).
      simpl. unfold evalCondition.
      replace (length pre + 1)%nat with (S (length pre)) by lia.
      now rewrite Hc1, Hc2.
Qed.

Lemma and_loop_forallb (e : Engine) (data : Data) (cs : list Condition)
    (bs : list bool) :
  Forall2 (evaluates_to e data) cs bs ->
  forall t,
    Matched (fst (EvaluateWithContext_and e Background cs data t)) =
      forallb id bs /\
    snd (EvaluateWithContext_and e Background cs data t) = None.
Proof.
  induction 1 as [|c b cs bs Hc _ IH]; intros t; simpl; [auto|].
  rewrite (evalCondition_evaluates _ _ _ _ _ Hc). simpl.
  destruct b; simpl; auto.
Qed.

Lemma or_loop_existsb (e : Engine) (data : Data) (cs : list Condition)
    (bs : list bool) :
  Forall2 (evaluates_to e data) cs bs ->
  forall t,
    Matched (fst (EvaluateWithContext_or e Background cs data t)) =
      existsb id bs /\
    snd (EvaluateWithContext_or e Background cs data t) = None.
Proof.
  induction 1 as [|c b cs bs Hc _ IH]; intros t; simpl; [auto|].
  rewrite (evalCondition_evaluates _ _ _ _ _ Hc). simpl.
  destruct b; simpl; auto.
Qed.

(** X10: when every condition of a rule evaluates to a boolean, the
    rule never errors, and it matches exactly when all of them are true
    under AND, when one of them is true under OR. *)
Theorem Evaluate_connective (e : Engine) (rule : Rule) (data : Data)
    (bs : list bool) :
  Conditions rule <> [] ->
  Forall2 (evaluates_to e data) (Conditions rule) bs ->
  Matched (fst (Engine_Evaluate e rule data)) =
    (if is_and (Rule_Logic rule) then forallb id bs else existsb id bs) /\
  snd (Engine_Evaluate e rule data) = None.
Proof.
  intros Hne H. rewrite Engine_Evaluate_branch by assumption.
  destruct (is_and (Rule_Logic rule)).
  - now apply and_loop_forallb.
  - now apply or_loop_existsb.
Qed.

Lemma and_loop_decided (e : Engine) (ctx : Context) (data : Data)
    (cs cs' : list Condition) (t : nat) (r : Result) (err : option error) :
  EvaluateWithContext_and e ctx cs data t = (r, err) ->
  err <> None \/ Matched r = false ->
  EvaluateWithContext_and e ctx (cs ++ cs') data t = (r, err).
Proof.
  revert t. induction cs as [|c cs IH]; intros t; simpl.
  - intros [= <- <-] [H|H]; [now contradiction H | discriminate].
  - destruct (evalCondition e ctx c data t) as [[[m x] [er|]] t'].
    + auto.
    + destruct m; simpl; [apply IH | auto].
Qed.

Lemma or_loop_decided (e : Engine) (ctx : Context) (data : Data)
    (cs cs' : list Condition) (t : nat) (r : Result) (err : option error) :
  EvaluateWithContext_or e ctx cs data t = (r, err) ->
  err <> None \/ Matched r = true ->
  EvaluateWithContext_or e ctx (cs ++ cs') data t = (r, err).
Proof.
  revert t. induction cs as [|c cs IH]; intros t; simpl.
  - intros [= <- <-] [H|H]; [now contradiction H | discriminate].
  - destruct (evalCondition e ctx c data t) as [[[m x] [er|]] t'].
    + auto.
    + destruct m; simpl; [auto | apply IH].
Qed.

(** X11: a result that was decided early stands when conditions are
    appended to the rule: an error, a non-match under AND and a match
    under OR are returned unchanged, explanation included, whatever
    follows. *)
Theorem Evaluate_decided (e : Engine) (ctx : Context) (logic : Logic)
    (cs cs' : list Condition) (data : Data) (r : Result)
    (err : option error) :
  cs <> [] ->
  Engine_EvaluateWithContext e ctx
    {| Conditions := cs; Rule_Logic := logic |} data = (r, err) ->
  err <> None \/ Matched r = negb (is_and logic) ->
  Engine_EvaluateWithContext e ctx
    {| Conditions := cs ++ cs'; Rule_Logic := logic |} data = (r, err).
Proof.
  intros Hne. unfold Engine_EvaluateWithContext. simpl.
  destruct (ctx 0%nat); [auto|].
  destruct cs as [|c cs]; [contradiction|].
  change (Nat.eqb (length (c :: cs)) 0) with false.
  change (Nat.eqb (length ((c :: cs) ++ cs')) 0) with false. cbv iota.
  assert (Hb : String.eqb
                 (if String.eqb logic "" then LogicAND else logic) LogicAND
               = is_and logic).
  { unfold is_and. now destruct (String.eqb logic ""). }
  rewrite Hb. destruct (is_and logic); simpl negb.
  - apply and_loop_decided.
  - apply or_loop_decided.
Qed.

Lemma explain_nonempty (c : Condition) (matched : bool) :
  explain c matched <> "".
Proof. unfold explain. destruct (Field c); discriminate. Qed.

Lemma evalCondition_explanation (e : Engine) (c : Condition) (data : Data)
    (t t' : nat) (m : bool) (x : string) :
  evalCondition e Background c data t = ((m, x, None), t') ->
  x = explain c m.
Proof.
  unfold evalCondition, Background.
  destruct (getValue data (Field c)) as [v [|]]; simpl; [|discriminate].
  destruct (ops e !! Op c) as [fn|]; [|discriminate].
  destruct (fn v (Value c)) as [m' [er|]]; [discriminate|].
  now intros [= <- <-].
Qed.

(** X12: without an error, the explanation is empty for the rule
    without conditions and for no other rule. *)
Theorem Evaluate_explanation_empty (e : Engine) (rule : Rule) (data : Data)
    (r : Result) :
  Engine_Evaluate e rule data = (r, None) ->
  (Explanation r = "" <-> Conditions rule = []).
Proof.
  destruct (Conditions rule) as [|c cs] eqn:Hcs.
  - unfold Engine_Evaluate, Engine_EvaluateWithContext. rewrite Hcs. simpl.
    now intros [= <-].
  - rewrite Engine_Evaluate_branch by (rewrite Hcs; discriminate).
    rewrite Hcs. intros H. split; [|discriminate]. intros Hx. exfalso.
    revert H. generalize 1%nat as t. generalize (c :: cs) as l. clear Hcs.
    destruct (is_and (Rule_Logic rule));
      induction l as [|c' l IH]; intros t; simpl.
    + intros [= <-]. discriminate.
    + destruct (evalCondition e Background c' data t)
        as [[[m x] [er|]] t'] eqn:E; [discriminate|].
      apply evalCondition_explanation in E. subst x.
      destruct m; simpl; [apply IH|].
      intros [= <-]. now apply (explain_nonempty c' false).
    + intros [= <-]. discriminate.
    + destruct (evalCondition e Background c' data t)
        as [[[m x] [er|]] t'] eqn:E; [discriminate|].
      apply evalCondition_explanation in E. subst x.
      destruct m; simpl; [|apply IH].
      intros [= <-]. now apply (explain_nonempty c' true).
Qed.

(** X13: the evaluation reads a record only through the fields its
    conditions name: two records that resolve those fields alike give the
    same result, on every engine and context. *)
Theorem Evaluate_record_frame (e : Engine) (ctx : Context) (rule : Rule)
    (data data' : Data) :
  Forall (fun c => getValue data (Field c) = getValue data' (Field c))
         (Conditions rule) ->
  Engine_EvaluateWithContext e ctx rule data =
  Engine_EvaluateWithContext e ctx rule data'.
Proof.
  intros H. unfold Engine_EvaluateWithContext.
  destruct (ctx 0%nat); [reflexivity|].
  destruct (Nat.eqb _ _); [reflexivity|].
  assert (Hc : forall c t, getValue data (Field c) = getValue data' (Field c) ->
                 evalCondition e ctx c data t = evalCondition e ctx c data' t).
  { intros c t Hg. unfold evalCondition. now rewrite Hg. }
  generalize 1%nat as t.
  destruct (String.eqb _ LogicAND);
    induction H as [|c cs Hg _ IH]; intros t; simpl; try reflexivity;
    rewrite (Hc c t Hg);
    destruct (evalCondition e ctx c data' t) as [[[m x] [er|]] t'];
    try reflexivity; now rewrite IH.
Qed.

(* ===================================================================== *)
(** ** Further properties of the comparators *)
(* ===================================================================== *)

(* ----- float comparisons ----- *)

Lemma SFcompare_antisym (x y : spec_float) :
  SFcompare y x = option_map CompOpp (SFcompare x y).
Proof.
  destruct x as [sx|sx| |sx mx ex], y as [sy|sy| |sy my ey]; simpl;
    try reflexivity;
    try (destruct sx; reflexivity); try (destruct sy; reflexivity);
    try (destruct sx, sy; reflexivity).
  assert (Hp : Pos.compare_cont Eq my mx =
               CompOpp (Pos.compare_cont Eq mx my))
    by (symmetry; apply (Pos.compare_cont_antisym mx my Eq)).
  destruct sx, sy; simpl; try reflexivity;
    rewrite (Z.compare_antisym ex ey), Hp;
    destruct (ex ?= ey)%Z; simpl; try reflexivity;
    now destruct (Pos.compare_cont Eq mx my).
Qed.

Lemma float_eqb_sym (x y : float) : PrimFloat.eqb x y = PrimFloat.eqb y x.
Proof.
  rewrite !FloatAxioms.eqb_spec. unfold SFeqb.
  rewrite (SFcompare_antisym (Prim2SF x) (Prim2SF y)).
  now destruct (SFcompare (Prim2SF x) (Prim2SF y)) as [[| |]|].
Qed.

Lemma float_ltb_not_leb (x y : float) :
  PrimFloat.ltb x y = true -> PrimFloat.leb y x = false.
Proof.
  rewrite FloatAxioms.ltb_spec, FloatAxioms.leb_spec. unfold SFltb, SFleb.
  rewrite (SFcompare_antisym (Prim2SF x) (Prim2SF y)).
  now destruct (SFcompare (Prim2SF x) (Prim2SF y)) as [[| |]|].
Qed.

Lemma float_leb_ltb_eqb (x y : float) :
  PrimFloat.leb x y = PrimFloat.ltb x y || PrimFloat.eqb x y.
Proof.
  rewrite FloatAxioms.leb_spec, FloatAxioms.ltb_spec, FloatAxioms.eqb_spec.
  unfold SFleb, SFltb, SFeqb.
  now destruct (SFcompare (Prim2SF x) (Prim2SF y)) as [[| |]|].
Qed.

(* ----- equality ----- *)

Lemma equal_true_iff (a b : value) :
  equal a b = true <->
  deep_eq a b \/
  (coercible a /\ coercible b /\
   PrimFloat.eqb (fst (toFloat a)) (fst (toFloat b)) = true).
Proof.
  clear format_v.
  rewrite <- DeepEqual_deep_eq. unfold equal.
  destruct (DeepEqual a b); [tauto|].
  rewrite <- !toFloat_coercible.
  destruct (toFloat a) as [fa [|]], (toFloat b) as [fb [|]]; simpl;
    intuition congruence.
Qed.

Lemma deep_eq_refl (a : value) : nan_free a -> deep_eq a a.
Proof.
  induction a as [|x|x|x|k x|k x|x| |xs IH| |m IH] using value_deep_ind;
    intros H; try constructor.
  - inversion H as [| |? Hn| | | | | | | |]; subst.
    unfold PrimFloat.is_nan in Hn. now apply negb_false_iff in Hn.
  - inversion H as [| | |? Hn| | | | | | |]; subst.
    unfold PrimFloat.is_nan in Hn. now apply negb_false_iff in Hn.
  - inversion H as [| | | | | | | |? Hxs| |]; subst. clear H.
    induction IH as [|x xs Hx _ IHxs]; [constructor|].
    inversion Hxs; subst. constructor; auto.
  - intros k. inversion H as [| | | | | | | | | |? Hm]; subst.
    destruct (m !! k) as [v|] eqn:E; constructor. eauto.
Qed.

Lemma deep_eq_sym (a : value) : forall b, deep_eq a b -> deep_eq b a.
Proof.
  induction a as [|x|x|x|k x|k x|x| |xs IH| |m IH] using value_deep_ind;
    intros b H; inversion H; subst; try constructor.
  - now rewrite float_eqb_sym.
  - now rewrite float_eqb_sym.
  - match goal with Hrel : Forall2 deep_eq xs _ |- _ =>
      clear H; induction Hrel as [|x y xs ys Hxy _ IHrel]; [constructor|]
    end.
    inversion IH; subst. constructor; auto.
  - intros k.
    match goal with Hrel : forall k, option_Forall2 deep_eq _ _ |- _ =>
      specialize (Hrel k); destruct (m !! k) as [v|] eqn:E;
      inversion Hrel; subst; constructor
    end.
    eapply IH; eauto.
Qed.

(** X14: on a value that holds no float and is not itself coercible to
    a number -- nil, a boolean, a string [ParseFloat] refuses, a slice or
    a map of such values and integers -- [equal] is identity: it is true
    of that value and another exactly when the two are the same. *)
Theorem equal_identity (a b : value) :
  float_free a -> ~ coercible a ->
  (equal a b = true <-> a = b).
Proof.
  clear format_v.
  intros Hff Hnc. rewrite equal_true_iff, (deep_eq_float_free a Hff b).
  tauto.
Qed.

(** X15: [equal] is reflexive on every value that holds no NaN. *)
Theorem equal_refl (a : value) : nan_free a -> equal a a = true.
Proof.
  intros H. apply equal_true_iff. left. now apply deep_eq_refl.
Qed.

(** X16: [equal] is symmetric, and so are the operators [eq] and [ne]
    built on it. *)
Theorem equal_sym (a b : value) :
  equal a b = equal b a /\ op_eq a b = op_eq b a /\ op_ne a b = op_ne b a.
Proof.
  clear format_v.
  assert (H : equal a b = equal b a).
  { apply Bool.eq_true_iff_eq. rewrite !equal_true_iff.
    rewrite (float_eqb_sym (fst (toFloat a)) (fst (toFloat b))).
    split; (intros [Hd|Hn]; [left; now apply deep_eq_sym | right; tauto]). }
  unfold op_eq, op_ne. now rewrite H.
Qed.

(* ----- ordering ----- *)

(** X17: [gt(a,b)] and [lt(b,a)] give the same boolean and fail
    together, and so do [gte(a,b)] and [lte(b,a)]; [gt] and [lte], and
    [lt] and [gte], never both match on the same operands. *)
Theorem ordering_duality (a b : value) :
  fst (greater a b) = fst (less b a) /\
  (snd (greater a b) = None <-> snd (less b a) = None) /\
  fst (greaterOrEqual a b) = fst (lessOrEqual b a) /\
  (snd (greaterOrEqual a b) = None <-> snd (lessOrEqual b a) = None) /\
  fst (greater a b) && fst (lessOrEqual a b) = false /\
  fst (less a b) && fst (greaterOrEqual a b) = false.
Proof.
  clear format_v.
  unfold greater, less, greaterOrEqual, lessOrEqual.
  destruct (toFloat a) as [fa [|]], (toFloat b) as [fb [|]]; simpl;
    repeat split; try reflexivity; try discriminate.
  - destruct (PrimFloat.ltb fb fa) eqn:E; [|reflexivity].
    now rewrite (float_ltb_not_leb _ _ E).
  - destruct (PrimFloat.ltb fa fb) eqn:E; [|reflexivity].
    now rewrite (float_ltb_not_leb _ _ E).
Qed.

(** X18: [gte] matches exactly when [gt] matches or both operands
    coerce to equal floats, and then [eq] matches too; likewise [lte]
    with [lt]. *)
Theorem ordering_or_equal (a b : value) :
  (fst (greaterOrEqual a b) = true <->
   fst (greater a b) = true \/
   (coercible a /\ coercible b /\
    PrimFloat.eqb (fst (toFloat a)) (fst (toFloat b)) = true)) /\
  (fst (lessOrEqual a b) = true <->
   fst (less a b) = true \/
   (coercible a /\ coercible b /\
    PrimFloat.eqb (fst (toFloat a)) (fst (toFloat b)) = true)) /\
  (fst (greaterOrEqual a b) = true ->
   fst (greater a b) = true \/ equal a b = true) /\
  (fst (lessOrEqual a b) = true ->
   fst (less a b) = true \/ equal a b = true).
Proof.
  clear format_v.
  assert (Hge : fst (greaterOrEqual a b) = true <->
                fst (greater a b) = true \/
                (coercible a /\ coercible b /\
                 PrimFloat.eqb (fst (toFloat a)) (fst (toFloat b)) = true)).
  { rewrite <- !toFloat_coercible. unfold greaterOrEqual, greater.
    destruct (toFloat a) as [fa [|]], (toFloat b) as [fb [|]]; simpl;
      try (intuition discriminate).
    rewrite float_leb_ltb_eqb, orb_true_iff, (float_eqb_sym fb fa). tauto. }
  assert (Hle : fst (lessOrEqual a b) = true <->
                fst (less a b) = true \/
                (coercible a /\ coercible b /\
                 PrimFloat.eqb (fst (toFloat a)) (fst (toFloat b)) = true)).
  { rewrite <- !toFloat_coercible. unfold lessOrEqual, less.
    destruct (toFloat a) as [fa [|]], (toFloat b) as [fb [|]]; simpl;
      try (intuition discriminate).
    rewrite float_leb_ltb_eqb, orb_true_iff. tauto. }
  repeat split; try apply Hge; try apply Hle.
  - intros H. apply Hge in H as [H|H]; [now left|].
    right. apply equal_true_iff. now right.
  - intros H. apply Hle in H as [H|H]; [now left|].
    right. apply equal_true_iff. now right.
Qed.

(* ----- substring and membership ----- *)

Lemma length_append (s1 s2 : string) :
  String.length (s1 +:+ s2) = (String.length s1 + String.length s2)%nat.
Proof. induction s1 as [|c s1 IH]; simpl; [reflexivity | now rewrite IH]. Qed.

Lemma append_empty_r (s : string) : s +:+ "" = s.
Proof.
  induction s as [|c s IH]; [reflexivity|].
  change (String c (s +:+ "") = String c s). now f_equal.
Qed.

(** X19: on strings, the empty search string is contained in every
    string and every string contains itself; a search string longer than
    the string it is searched in is never contained. *)
Theorem contains_edge (s sub : string) :
  contains (VString s) (VString "") = (true, None) /\
  contains (VString s) (VString s) = (true, None) /\
  (String.length s < String.length sub ->
   contains (VString s) (VString sub) = (false, None)).
Proof.
  unfold contains. simpl. split; [|split].
  - f_equal. apply Contains_spec. now exists "", s.
  - f_equal. apply Contains_spec. exists "", "".
    exact (eq_sym (append_empty_r s)).
  - intros Hlen. f_equal. destruct (Contains s sub) eqn:E; [|reflexivity].
    apply Contains_spec in E as (pre & post & ->).
    rewrite !length_append in Hlen. lia.
Qed.

(** X20: membership in a concatenation is membership in the first part
    or else in the second; membership in a one-element slice is [eq]
    with that element; nothing is a member of the empty slice. *)
Theorem in_append (a : value) (xs ys : list value) :
  in_ a (VSlice (xs ++ ys)) =
    (if fst (in_ a (VSlice xs)) then (true, None) else in_ a (VSlice ys)) /\
  (forall b, in_ a (VSlice [b]) = op_eq a b) /\
  in_ a (VSlice []) = (false, None).
Proof.
  unfold in_, op_eq. simpl. split; [|split; [|reflexivity]].
  - induction xs as [|x xs IH]; simpl; [reflexivity|].
    destruct (equal a x); [reflexivity | exact IH].
  - intros b. now destruct (equal a b).
Qed.

(** X21: a value that holds no NaN is a member of every slice that has
    it as an element. *)
Theorem in_element (a : value) (xs : list value) :
  nan_free a -> a ∈ xs -> in_ a (VSlice xs) = (true, None).
Proof.
  intros Hn Hin. unfold in_. simpl.
  induction Hin as [x xs|x y xs _ IH]; simpl.
  - now rewrite (proj2 (equal_true_iff x x) (or_introl (deep_eq_refl x Hn))).
  - destruct (equal x y); [reflexivity | exact (IH Hn)].
Qed.

End Rules.

(* ===================================================================== *)
(** ** The embedding at work on closed inputs *)
(* ===================================================================== *)

(** The engine with the built-in operators, over the reference parser. *)
Local Abbreviation engine := (New ParseFloat_integer).
Local Abbreviation run := (Engine_Evaluate format_v_basic engine).

(** Settles [evaluates_to] on closed inputs, given the value of the field
    and the operator's function. *)
Ltac evaluates v fn :=
  exists v, fn; split;
  [ vm_compute; reflexivity
  | split; [ apply New_ops | vm_compute; reflexivity ] ].

Lemma cond_premium_true : evaluates_to engine sample_record cond_premium true.
Proof. evaluates (VBool true) (op_eq ParseFloat_integer). Qed.

Lemma cond_role_true : evaluates_to engine sample_record cond_role true.
Proof. evaluates (VString "admin") (op_eq ParseFloat_integer). Qed.

Lemma cond_age_false : evaluates_to engine sample_record cond_age false.
Proof. evaluates (VInt KInt 17) (greater ParseFloat_integer). Qed.

Lemma cond_missing_fails :
  fails_with engine sample_record cond_missing
             (ErrFieldNotFound "missing.field").
Proof. eapply (fails_field _ _ cond_missing). vm_compute. reflexivity. Qed.

Lemma cond_unknown_fails :
  fails_with engine sample_record cond_unknown (ErrUnknownOperator "between").
Proof.
  eapply (fails_operator _ _ cond_unknown); vm_compute; reflexivity.
Qed.

Lemma cond_mismatch_fails :
  fails_with engine sample_record cond_mismatch
             (Errorf "type mismatch for >").
Proof.
  eapply (fails_comparator _ _ cond_mismatch (VString "active")
            (greater ParseFloat_integer) false).
  - vm_compute. reflexivity.
  - apply New_ops.
  - vm_compute. reflexivity.
Qed.

(** AND stops at the first false condition: the condition after it,
    whose field is missing, is not reached. *)
Lemma Evaluate_and_witness :
  run {| Conditions := [cond_premium; cond_age; cond_missing];
         Rule_Logic := "" |} sample_record =
    ({| Matched := false; Explanation := "age gt 18 → false" |}, None) /\
  run {| Conditions := [cond_premium; cond_role]; Rule_Logic := LogicAND |}
      sample_record =
    ({| Matched := true; Explanation := "all conditions met" |}, None).
Proof.
  split.
  - apply (proj1 (Evaluate_and format_v_basic engine
             {| Conditions := [cond_premium; cond_age; cond_missing];
                Rule_Logic := "" |}
             sample_record (or_introl eq_refl) ltac:(discriminate))
             [cond_premium] cond_age [cond_missing] eq_refl).
    + repeat constructor. exact cond_premium_true.
    + exact cond_age_false.
  - apply (proj2 (Evaluate_and format_v_basic engine
             {| Conditions := [cond_premium; cond_role];
                Rule_Logic := LogicAND |}
             sample_record (or_intror eq_refl) ltac:(discriminate))).
    repeat constructor; [exact cond_premium_true | exact cond_role_true].
Defined.

(** The rule without conditions: every condition matches, yet the
    explanation is empty, not ["all conditions met"]. *)
Lemma Evaluate_and_counterexample :
  Forall (fun c => evaluates_to engine sample_record c true)
         (Conditions {| Conditions := []; Rule_Logic := LogicAND |}) /\
  run {| Conditions := []; Rule_Logic := LogicAND |} sample_record <>
    ({| Matched := true; Explanation := "all conditions met" |}, None).
Proof. split; [constructor | discriminate]. Qed.

(** OR stops at the first true condition; an error before it aborts;
    with no true condition nothing is met. *)
Lemma Evaluate_or_witness :
  run {| Conditions := [cond_age; cond_premium; cond_missing];
         Rule_Logic := LogicOR |} sample_record =
    ({| Matched := true; Explanation := "premium eq true → true" |}, None) /\
  run {| Conditions := [cond_age; cond_missing; cond_premium];
         Rule_Logic := LogicOR |} sample_record =
    (Result_zero, Some (ErrFieldNotFound "missing.field")) /\
  run {| Conditions := [cond_age]; Rule_Logic := LogicOR |} sample_record =
    ({| Matched := false; Explanation := "no conditions met" |}, None).
Proof.
  split; [|split].
  - apply (proj1 (Evaluate_or format_v_basic engine
             {| Conditions := [cond_age; cond_premium; cond_missing];
                Rule_Logic := LogicOR |}
             sample_record eq_refl ltac:(discriminate))
             [cond_age] cond_premium [cond_missing] eq_refl).
    + repeat constructor. exact cond_age_false.
    + exact cond_premium_true.
  - apply (proj1 (proj2 (Evaluate_or format_v_basic engine
             {| Conditions := [cond_age; cond_missing; cond_premium];
                Rule_Logic := LogicOR |}
             sample_record eq_refl ltac:(discriminate)))
             [cond_age] cond_missing [cond_premium] _ eq_refl).
    + repeat constructor. exact cond_age_false.
    + exact cond_missing_fails.
  - apply (proj2 (proj2 (Evaluate_or format_v_basic engine
             {| Conditions := [cond_age]; Rule_Logic := LogicOR |}
             sample_record eq_refl ltac:(discriminate)))).
    repeat constructor. exact cond_age_false.
Defined.

(** The rule without conditions: no condition matches, yet the result is
    a match, not ["no conditions met"]. *)
Lemma Evaluate_or_counterexample :
  Forall (fun c => evaluates_to engine sample_record c false)
         (Conditions {| Conditions := []; Rule_Logic := LogicOR |}) /\
  run {| Conditions := []; Rule_Logic := LogicOR |} sample_record <>
    ({| Matched := false; Explanation := "no conditions met" |}, None).
Proof. split; [constructor | discriminate]. Qed.

(** The three failures, each after a condition that lets an AND rule go
    on, and under OR after one that lets an OR rule go on. *)
Lemma Evaluate_error_witness :
  run {| Conditions := [cond_premium; cond_missing; cond_age];
         Rule_Logic := LogicAND |} sample_record =
    (Result_zero, Some (ErrFieldNotFound "missing.field")) /\
  run {| Conditions := [cond_premium; cond_unknown]; Rule_Logic := "" |}
      sample_record =
    (Result_zero, Some (ErrUnknownOperator "between")) /\
  run {| Conditions := [cond_age; cond_mismatch; cond_premium];
         Rule_Logic := LogicOR |} sample_record =
    (Result_zero, Some (Errorf "type mismatch for >")).
Proof.
  split; [|split].
  - apply (proj1 (proj1 (Evaluate_error format_v_basic engine
             {| Conditions := [cond_premium; cond_missing; cond_age];
                Rule_Logic := LogicAND |} sample_record)
             [cond_premium] cond_missing [cond_age] eq_refl
             ltac:(repeat constructor; exact cond_premium_true))).
    vm_compute. reflexivity.
  - apply (proj1 (proj2 (proj1 (Evaluate_error format_v_basic engine
             {| Conditions := [cond_premium; cond_unknown];
                Rule_Logic := "" |} sample_record)
             [cond_premium] cond_unknown [] eq_refl
             ltac:(repeat constructor; exact cond_premium_true))));
      vm_compute; reflexivity.
  - apply (proj2 (proj2 (proj1 (Evaluate_error format_v_basic engine
             {| Conditions := [cond_age; cond_mismatch; cond_premium];
                Rule_Logic := LogicOR |} sample_record)
             [cond_age] cond_mismatch [cond_premium] eq_refl
             ltac:(repeat constructor; exact cond_age_false)))
             (greater ParseFloat_integer) false).
    + vm_compute. reflexivity.
    + apply New_ops.
    + vm_compute. reflexivity.
Defined.

(** The reference parser reads ["100"] and refuses ["abc"], so the three
    equalities of the specification hold over it. *)
Lemma equal_spec_witness :
  ParseFloat_integer "100" = (100%float, None) /\
  snd (ParseFloat_integer "abc") <> None /\
  equal ParseFloat_integer (VInt KInt 100) (VFloat64 100%float) = true /\
  equal ParseFloat_integer (VString "100") (VInt KInt 100) = true /\
  equal ParseFloat_integer (VString "abc") (VInt KInt 100) = false.
Proof.
  assert (H100 : ParseFloat_integer "100" = (100%float, None))
    by (vm_compute; reflexivity).
  assert (Habc : snd (ParseFloat_integer "abc") <> None)
    by (vm_compute; discriminate).
  destruct (equal_spec ParseFloat_integer)
    as (_ & _ & _ & _ & _ & E1 & E2 & E3).
  exact (conj H100 (conj Habc (conj E1 (conj (E2 H100) (E3 Habc))))).
Defined.

(** Ordering across an integer and a numeric string, and the error on a
    boolean. *)
Lemma ordering_spec_witness :
  greater ParseFloat_integer (VInt KInt 150) (VString "100") = (true, None) /\
  lessOrEqual ParseFloat_integer (VBool true) (VString "100") =
    (false, Some (Errorf "type mismatch for <=")).
Proof.
  split.
  - apply (proj1 (ordering_spec ParseFloat_integer
                    (VInt KInt 150) (VString "100"))).
    + exact I.
    + vm_compute. reflexivity.
  - apply (proj1 (proj2 (ordering_spec ParseFloat_integer
                           (VBool true) (VString "100")))).
    left. exact (fun H => H).
Defined.

(** A nested field is found; a path through a string is not. *)
Lemma getValue_spec_witness :
  getValue sample_record "user.role" = (VString "admin", true) /\
  getValue sample_record "status.code" = (VNil, false).
Proof.
  split.
  - apply (proj1 (getValue_spec sample_record "user.role")).
    eexists. split; [reflexivity|].
    eapply resolves_step; [vm_compute; reflexivity|].
    eapply resolves_step; [vm_compute; reflexivity|].
    apply resolves_here.
  - apply (proj2 (proj2 (proj2 (getValue_spec sample_record "status.code")))
             ["status"] "code" [] (VString "active")).
    + vm_compute. reflexivity.
    + eapply resolves_step; [vm_compute; reflexivity|]. apply resolves_here.
    + reflexivity.
Defined.

(** Membership in a slice, and the error on a string. *)
Lemma in_spec_witness :
  in_ ParseFloat_integer (VString "x") (VString "not-a-sequence") =
    (false, Some (Errorf "in requires slice value")) /\
  in_ ParseFloat_integer (VInt KInt 1) VSliceNil = (false, None).
Proof.
  split.
  - apply (proj1 (in_spec ParseFloat_integer
                    (VString "x") (VString "not-a-sequence")));
      discriminate.
  - apply (proj1 (proj2 (proj2 (in_spec ParseFloat_integer
                                  (VInt KInt 1) VSliceNil)))).
    reflexivity.
Defined.

(** The message of [in] on a value that is not a slice is not the one
    the claim quotes. *)
Lemma in_spec_counterexample :
  (VString "not-a-sequence" <> VSliceNil /\
   forall xs, VString "not-a-sequence" <> VSlice xs) /\
  snd (in_ ParseFloat_integer (VString "x") (VString "not-a-sequence")) <>
    Some (Errorf "in requires a sequence value").
Proof. repeat split; discriminate. Qed.

(** A substring is found; a number is no string. *)
Lemma contains_spec_witness :
  (exists r, contains (VString "golang rules") (VString "go") = (r, None) /\
             (r = true <-> Substring "go" "golang rules")) /\
  contains (VInt KInt 42) (VString "4") =
    (false, Some (Errorf "type mismatch for contains")).
Proof.
  split.
  - apply (proj1 (contains_spec ParseFloat_integer
                    (VString "golang rules") (VString "go"))
             "golang rules" "go" eq_refl eq_refl).
  - apply (proj1 (proj2 (contains_spec ParseFloat_integer
                           (VInt KInt 42) (VString "4")))).
    left. discriminate.
Defined.

(** ["AND"] and ["Or"] are evaluated as ["or"]. *)
Lemma Evaluate_logic_witness :
  run {| Conditions := [cond_age; cond_premium]; Rule_Logic := "AND" |}
      sample_record =
  run {| Conditions := [cond_age; cond_premium]; Rule_Logic := LogicOR |}
      sample_record /\
  run {| Conditions := [cond_age; cond_premium]; Rule_Logic := "Or" |}
      sample_record =
  run {| Conditions := [cond_age; cond_premium]; Rule_Logic := LogicOR |}
      sample_record.
Proof.
  split;
    apply (proj1 (Evaluate_logic format_v_basic) engine
             [cond_age; cond_premium] sample_record);
    discriminate.
Defined.

(* ===================================================================== *)
(** ** The further properties on closed inputs *)
(* ===================================================================== *)

(** A top-level key is looked up directly. *)
Lemma getValue_plain_key_witness :
  getValue sample_record "status" = (VString "active", true) /\
  getValue sample_record "colour" = (VNil, false).
Proof.
  split.
  - refine (eq_trans (getValue_plain_key _ "status" eq_refl) _).
    vm_compute. reflexivity.
  - refine (eq_trans (getValue_plain_key _ "colour" eq_refl) _).
    vm_compute. reflexivity.
Defined.

(** [user.role] is [role] inside what [user] holds; [status.code] and
    [colour.code] are not found. *)
Lemma getValue_compose_witness :
  getValue sample_record "user.role" =
    getValue (Some {[ "role" := VString "admin" ]}) "role" /\
  getValue sample_record "status.code" = (VNil, false) /\
  getValue sample_record "colour.code" = (VNil, false).
Proof.
  split; [|split].
  - apply (proj1 (getValue_compose sample_record "user" "role")).
    vm_compute. reflexivity.
  - apply (proj1 (proj2 (getValue_compose sample_record "status" "code"))
             (VString "active")); [vm_compute; reflexivity | discriminate].
  - apply (proj2 (proj2 (getValue_compose sample_record "colour" "code"))
             VNil).
    vm_compute. reflexivity.
Defined.

(** The key ["a.b"] of a record cannot be reached by the path ["a.b"]. *)
Lemma getValue_dotted_key_witness :
  getValue (Some (delete "a.b" {[ "a.b" := VBool true ]})) "a.b" =
  getValue (Some {[ "a.b" := VBool true ]}) "a.b".
Proof. apply getValue_dotted_key. reflexivity. Defined.

Lemma getValue_not_found_witness :
  getValue sample_record "status.code" = (VNil, false) /\ VNil = VNil.
Proof.
  assert (H : getValue sample_record "status.code" = (VNil, false))
    by (vm_compute; reflexivity).
  exact (conj H (getValue_not_found sample_record "status.code" VNil H)).
Defined.

(** Registering [between] leaves a rule over [gt] and [eq] alone. *)
Lemma Register_frame_witness :
  Engine_EvaluateWithContext format_v_basic
    (Register engine "between" (fun _ _ => (true, None))) Background
    {| Conditions := [cond_age; cond_premium]; Rule_Logic := LogicOR |}
    sample_record =
  Engine_EvaluateWithContext format_v_basic engine Background
    {| Conditions := [cond_age; cond_premium]; Rule_Logic := LogicOR |}
    sample_record.
Proof.
  apply (Register_frame format_v_basic engine "between").
  repeat constructor; discriminate.
Defined.

(** [gt] re-registered as the constant true: the rule that failed now
    matches. *)
Lemma Register_honoured_witness :
  Engine_Evaluate format_v_basic
    (Register engine OperatorGT (fun _ _ => (true, None)))
    {| Conditions := [cond_age]; Rule_Logic := LogicOR |} sample_record =
  ({| Matched := true; Explanation := "age gt 18 → true" |}, None).
Proof.
  apply (proj1 (Register_honoured format_v_basic engine cond_age
                  (fun _ _ => (true, None)) LogicOR sample_record
                  (VInt KInt 17) ltac:(vm_compute; reflexivity))).
Defined.

(** A context cancelled from the start, and one cancelled after the
    first condition has been evaluated. *)
Lemma EvaluateWithContext_cancellation_witness :
  Engine_EvaluateWithContext format_v_basic engine
    (cancelled_from 0 Canceled)
    {| Conditions := []; Rule_Logic := "" |} sample_record =
    (Result_zero, Some Canceled) /\
  Engine_EvaluateWithContext format_v_basic engine
    (cancelled_from 2 DeadlineExceeded)
    {| Conditions := [cond_premium; cond_role]; Rule_Logic := LogicAND |}
    sample_record =
    (Result_zero, Some DeadlineExceeded).
Proof.
  split.
  - apply (proj1 (EvaluateWithContext_cancellation format_v_basic engine
                    (cancelled_from 0 Canceled)
                    {| Conditions := []; Rule_Logic := "" |}
                    sample_record Canceled)); reflexivity.
  - apply (proj2 (EvaluateWithContext_cancellation format_v_basic engine
                    (cancelled_from 2 DeadlineExceeded)
                    {| Conditions := [cond_premium; cond_role];
                       Rule_Logic := LogicAND |}
                    sample_record DeadlineExceeded)
             [cond_premium] cond_role [] eq_refl).
    + repeat constructor. exact cond_premium_true.
    + intros [|[|n]] Hn; try reflexivity. simpl in Hn. lia.
    + reflexivity.
    + reflexivity.
Defined.


(** [true, false, true]: no match under AND, a match under OR. *)
Lemma Evaluate_connective_witness :
  Matched (fst (run {| Conditions := [cond_premium; cond_age; cond_role];
                       Rule_Logic := LogicAND |} sample_record)) = false /\
  Matched (fst (run {| Conditions := [cond_premium; cond_age; cond_role];
                       Rule_Logic := LogicOR |} sample_record)) = true.
Proof.
  assert (H : Forall2 (evaluates_to engine sample_record)
                [cond_premium; cond_age; cond_role] [true; false; true]).
  { repeat constructor.
    - exact cond_premium_true.
    - exact cond_age_false.
    - exact cond_role_true. }
  split.
  - apply (proj1 (Evaluate_connective format_v_basic engine
                    {| Conditions := [cond_premium; cond_age; cond_role];
                       Rule_Logic := LogicAND |}
                    sample_record [true; false; true]
                    ltac:(discriminate) H)).
  - apply (proj1 (Evaluate_connective format_v_basic engine
                    {| Conditions := [cond_premium; cond_age; cond_role];
                       Rule_Logic := LogicOR |}
                    sample_record [true; false; true]
                    ltac:(discriminate) H)).
Defined.

(** The non-match of an AND rule stands when a condition is appended. *)
Lemma Evaluate_decided_witness :
  Engine_EvaluateWithContext format_v_basic engine Background
    {| Conditions := [cond_age] ++ [cond_missing]; Rule_Logic := LogicAND |}
    sample_record =
  ({| Matched := false; Explanation := "age gt 18 → false" |}, None).
Proof.
  apply (Evaluate_decided format_v_basic engine Background LogicAND
           [cond_age] [cond_missing] sample_record).
  - discriminate.
  - vm_compute. reflexivity.
  - right. reflexivity.
Defined.

(** A rule with a condition is explained; the explanation is not
    empty. *)
Lemma Evaluate_explanation_empty_witness :
  run {| Conditions := [cond_premium]; Rule_Logic := "" |} sample_record =
    ({| Matched := true; Explanation := "all conditions met" |}, None) /\
  ("all conditions met" = "" <-> [cond_premium] = []).
Proof.
  assert (H : run {| Conditions := [cond_premium]; Rule_Logic := "" |}
                  sample_record =
              ({| Matched := true; Explanation := "all conditions met" |},
               None)) by (vm_compute; reflexivity).
  exact (conj H (Evaluate_explanation_empty format_v_basic engine
                   {| Conditions := [cond_premium]; Rule_Logic := "" |}
                   sample_record _ H)).
Defined.

(** A record with the one field the rule names evaluates like the
    sample record. *)
Lemma Evaluate_record_frame_witness :
  Engine_EvaluateWithContext format_v_basic engine Background
    {| Conditions := [cond_age]; Rule_Logic := "" |} sample_record =
  Engine_EvaluateWithContext format_v_basic engine Background
    {| Conditions := [cond_age]; Rule_Logic := "" |}
    (Some {[ "age" := VInt KInt 17 ]}).
Proof.
  apply (Evaluate_record_frame format_v_basic engine Background).
  repeat constructor.
Defined.

(** The string ["abc"] equals itself and nothing else. *)
Lemma equal_identity_witness :
  equal ParseFloat_integer (VString "abc") (VString "abc") = true /\
  equal ParseFloat_integer (VString "abc") (VInt KInt 100) <> true.
Proof.
  assert (Hc : ~ coercible ParseFloat_integer (VString "abc"))
    by (vm_compute; discriminate).
  split.
  - apply (equal_identity ParseFloat_integer (VString "abc") (VString "abc")
             (float_free_string "abc") Hc). reflexivity.
  - intros H.
    apply (equal_identity ParseFloat_integer (VString "abc") (VInt KInt 100)
             (float_free_string "abc") Hc) in H. discriminate H.
Defined.

Lemma equal_refl_witness :
  equal ParseFloat_integer (VSlice [VFloat64 1.5%float; VNil])
                           (VSlice [VFloat64 1.5%float; VNil]) = true.
Proof.
  apply (equal_refl ParseFloat_integer).
  repeat constructor.
Defined.

Lemma in_element_witness :
  in_ ParseFloat_integer (VString "pending")
      (VSlice [VString "active"; VString "pending"]) = (true, None).
Proof.
  apply (in_element ParseFloat_integer).
  - constructor.
  - apply list_elem_of_In. simpl. auto.
Defined.
